(** * WhatsApp bridge: connection lifecycle and message routing

    A shallow embedding of the TypeScript sources of the bridge
    ([whatsapp.ts], [message-handler.ts], [audio-handler.ts], [bridge.ts])
    and the properties of its routing and reconnect logic.

    Conventions of the embedding.
    - A JavaScript string is a Rocq [string]; one character stands for one
      UTF-16 code unit below 256.  [null] and [undefined] are both [None].
    - The code talks to three collaborators (the messaging transport, the
      transcription backend, the orchestrator).  Their answers are given by
      a [World], which may look at everything that happened so far; every
      call, with its answer, and every log line is recorded, in order, in
      a [Trace].
    - An [async] function is a computation in the monad [M]: it reads the
      world, adds to the trace and either returns or throws.  A log line
      is recorded with its logger, its level and its message; the
      structured fields of the line are left out.  One invocation of a
      handler runs to its end before the next one starts.
    - A call of [axios.post] is one exchange with the network: neither
      call in the sources sets [maxRedirects], so an answer with a status
      from 300 to 399 and a [Location] is followed (after 301, 302 and 303
      by a GET without the body), and the call resolves or rejects on the
      answer it ends with.
    - The module state of [whatsapp.ts] (the variable [socket] and the
      pending timers) is passed explicitly. *)

From Stdlib Require Import String Ascii List ZArith Bool Lia.
From Stdlib Require Import Strings.Byte.
Import ListNotations.
Local Open Scope string_scope.
Local Open Scope list_scope.

(** ** JavaScript primitives used by the sources *)

Module JS.

(** Truthiness of a [string | null | undefined]. *)
Definition truthy (s : option string) : bool :=
  match s with
  | Some s => negb (String.eqb s "")
  | None => false
  end.

(** Truthiness of a [boolean | null | undefined]. *)
Definition truthyb (b : option bool) : bool :=
  match b with
  | Some b => b
  | None => false
  end.

(** [a || b] on nullable strings. *)
Definition or (a b : option string) : option string :=
  if truthy a then a else b.

(** A truthy string, as a test [if (s)] narrows it: the string itself
    when it is neither missing nor empty. *)
Definition ifTruthy (s : option string) : option string :=
  if truthy s then s else None.

(** [a || d] where the right operand is a string constant. *)
Definition orDefault (a : option string) (d : string) : string :=
  match a with
  | Some s => if String.eqb s "" then d else s
  | None => d
  end.

(** [s.endsWith(suffix)]. *)
Definition endsWith (s suffix : string) : bool :=
  (String.length suffix <=? String.length s)%nat &&
  String.eqb
    (substring (String.length s - String.length suffix)
               (String.length suffix) s)
    suffix.

(** White space and line terminators of ECMAScript, below code 256:
    TAB, LF, VT, FF, CR, SP and NBSP. *)
Definition isWhiteSpace (c : ascii) : bool :=
  let n := nat_of_ascii c in
  ((9 <=? n) && (n <=? 13) || (n =? 32) || (n =? 160))%nat.

Fixpoint trimStart (s : string) : string :=
  match s with
  | EmptyString => EmptyString
  | String c r => if isWhiteSpace c then trimStart r else s
  end.

Fixpoint trimEnd (s : string) : string :=
  match s with
  | EmptyString => EmptyString
  | String c r =>
      let r' := trimEnd r in
      if isWhiteSpace c && String.eqb r' "" then EmptyString
      else String c r'
  end.

(** [s.trim()]. *)
Definition trim (s : string) : string := trimEnd (trimStart s).

End JS.

(** ** The message types of the transport ([proto.IWebMessageInfo]) *)

Module Proto.

Record MessageKey := {
  remoteJid : option string;
  fromMe : option bool;
  id : option string;
  participant : option string
}.

Record ExtendedTextMessage := { text : option string }.

Record AudioMessage := { mimetype : option string; ptt : option bool }.

Record Message := {
  conversation : option string;
  extendedTextMessage : option ExtendedTextMessage;
  audioMessage : option AudioMessage
}.

Record WebMessageInfo := {
  key : MessageKey;
  message : option Message
}.

End Proto.

(** ** Effects, worlds and the monad of asynchronous code *)

(** Identity of a transport socket ([WASocket]). *)
Definition WASocket := nat.

(** The bytes of a Node [Buffer]. *)
Definition Buffer := list Byte.byte.

Inductive Level := Debug | Info | Warn | Error.

(** What a [catch] clause can tell about the value it caught:
    [axios.isAxiosError] holds of the first kind only. *)
Inductive Exn :=
| AxiosError (status : option Z) (message : string)
| OtherError (message : string).

Definition isAxiosError (e : Exn) : bool :=
  match e with
  | AxiosError _ _ => true
  | OtherError _ => false
  end.

Inductive Result (A : Type) :=
| Return (a : A)
| Throw (e : Exn).
Arguments Return {A} a.
Arguments Throw {A} e.

(** [BridgePayload] and [BridgeResponse] of [bridge.ts]. *)
Record BridgePayload := {
  channel : string;
  sender_id : string;
  content : string
}.

Record BridgeResponse := {
  text : option string;
  metadata : option (list (string * string));
  error : option string
}.

(** [TranscribeResponse] of [audio-handler.ts]; the code reads it with
    [response.data?.text?.trim()], so the field may be missing. *)
Record TranscribeResponse := { transcript : option string }.

(** One part of a multipart form ([form.append(name, value, options)]). *)
Record FormPart := {
  fieldName : string;
  value : Buffer;
  filename : string;
  contentType : string
}.

Record AxiosConfig := {
  headerContentType : string;
  timeout : Z;
  maxContentLength : option Z
}.

Inductive Method := GET | POST.

(** One HTTP request as it goes on the wire. *)
Record Request (B : Type) := {
  method : Method;
  target : string;
  sent : option B
}.
Arguments method {B} _.
Arguments target {B} _.
Arguments sent {B} _.

(** What the network does with one HTTP request: it answers with a
    status, possibly a [Location] header (given as the URL it resolves
    to) and a body, or the request fails, or no answer comes in time. *)
Inductive Wire (D : Type) :=
| WireResponse (status : Z) (location : option string) (data : D)
| WireFailure (message : string)
| WireTimeout.
Arguments WireResponse {D} status location data.
Arguments WireFailure {D} message.
Arguments WireTimeout {D}.

(** How one call of [axios.post] ends on the network, once the redirects
    have been followed: with the answer of the last request, with a
    failure, or with a timeout. *)
Inductive Http (D : Type) :=
| HttpResponse (status : Z) (data : D)
| HttpNetworkFailure (message : string)
| HttpTimeout.
Arguments HttpResponse {D} status data.
Arguments HttpNetworkFailure {D} message.
Arguments HttpTimeout {D}.

Record AxiosResponse (D : Type) := { status : Z; data : D }.
Arguments status {D} _.
Arguments data {D} _.

(** One entry of the trace: a log line, or a call to a collaborator
    together with the answer it got. *)
Inductive Effect :=
| ELog (logger : string) (level : Level) (msg : string)
| EDownload (msg : Proto.WebMessageInfo) (answer : Result (option Buffer))
| EPostJson (url : string) (payload : BridgePayload) (config : AxiosConfig)
    (answer : Http (option BridgeResponse))
| EPostForm (url : string) (parts : list FormPart) (config : AxiosConfig)
    (answer : Http (option TranscribeResponse))
| ESendMessage (sock : WASocket) (jid : string) (text : string)
    (answer : Result unit).

Definition Trace := list Effect.

(** The collaborators.  Each answer may depend on the trace so far.
    [orchestrator] and [voiceGateway] answer the requests that one call of
    [axios.post] puts on the wire, the first to the configured endpoint and
    the later ones to wherever a redirect leads; the number tells how many
    redirects the call has followed already.  [maxRedirects] is the
    default of the installed axios: neither call sets the option. *)
Record World := {
  env_OPENCLAW_URL : option string;
  env_VOICE_GATEWAY_URL : option string;
  maxRedirects : nat;
  downloadMediaMessage :
    Trace -> Proto.WebMessageInfo -> Result (option Buffer);
  orchestrator :
    Trace -> nat -> Request BridgePayload -> Wire (option BridgeResponse);
  voiceGateway :
    Trace -> nat -> Request (list FormPart)
    -> Wire (option TranscribeResponse);
  sendMessage : Trace -> WASocket -> string -> string -> Result unit
}.

(** [m w h] runs [m] in the world [w] after the history [h]; it gives the
    result of the run and the effects the run adds to the history. *)
Definition M (A : Type) : Type := World -> Trace -> Result A * Trace.

Definition ret {A} (a : A) : M A := fun _ _ => (Return a, []).

Definition bind {A B} (m : M A) (k : A -> M B) : M B :=
  fun w h =>
    match m w h with
    | (Return a, d) => (fst (k a w (h ++ d)), d ++ snd (k a w (h ++ d)))
    | (Throw e, d) => (Throw e, d)
    end.

Definition throw {A} (e : Exn) : M A := fun _ _ => (Throw e, []).

(** [try { body } catch (err) { handler }]. *)
Definition tryCatch {A} (body : M A) (handler : Exn -> M A) : M A :=
  fun w h =>
    match body w h with
    | (Return a, d) => (Return a, d)
    | (Throw e, d) =>
        (fst (handler e w (h ++ d)), d ++ snd (handler e w (h ++ d)))
    end.

Definition ask : M World := fun w _ => (Return w, []).

Definition log (logger : string) (level : Level) (msg : string) : M unit :=
  fun _ _ => (Return tt, [ELog logger level msg]).

Declare Scope m_scope.
Delimit Scope m_scope with m.
Notation "x <- m ;; k" := (bind m (fun x => k))
  (at level 61, m at next level, right associativity) : m_scope.
Notation "m ;; k" := (bind m (fun _ => k))
  (at level 61, right associativity) : m_scope.
Local Open Scope m_scope.

(** The result of a run and the effects it adds. *)
Definition result {A} (m : M A) (w : World) (h : Trace) : Result A :=
  fst (m w h).

Definition effects {A} (m : M A) (w : World) (h : Trace) : Trace :=
  snd (m w h).

(** The URL to go to next, when the answer is a redirect: a status from
    300 to 399 with a [Location] header that is not empty. *)
Definition followed (status : Z) (location : option string)
    : option string :=
  if ((300 <=? status) && (status <? 400))%Z then JS.ifTruthy location
  else None.

(** The request that follows a redirect: after 301, 302 and 303 a POST
    becomes a GET without a body; otherwise method and body are kept. *)
Definition nextRequest {B} (status : Z) (req : Request B) (url : string)
    : Request B :=
  match method req with
  | POST =>
      if ((status =? 301) || (status =? 302) || (status =? 303))%Z
      then {| method := GET; target := url; sent := None |}
      else {| method := POST; target := url; sent := sent req |}
  | GET => {| method := GET; target := url; sent := sent req |}
  end.

(** Following redirects, at most [fuel] of them; one more is an error. *)
Fixpoint follow {B D} (fuel : nat) (ask : nat -> Request B -> Wire D)
    (hop : nat) (req : Request B) : Http D :=
  match ask hop req with
  | WireResponse st loc d =>
      match followed st loc with
      | Some url =>
          match fuel with
          | O => HttpNetworkFailure "Maximum number of redirects exceeded"
          | S fuel' => follow fuel' ask (S hop) (nextRequest st req url)
          end
      | None => HttpResponse st d
      end
  | WireFailure m => HttpNetworkFailure m
  | WireTimeout => HttpTimeout
  end.

(** What one call of [axios.post] does on the network: with
    [maxRedirects] at 0 the first answer is final, otherwise redirects
    are followed. *)
Definition exchange {B D} (limit : nat) (ask : nat -> Request B -> Wire D)
    (req : Request B) : Http D :=
  match limit with
  | O =>
      match ask O req with
      | WireResponse st _ d => HttpResponse st d
      | WireFailure m => HttpNetworkFailure m
      | WireTimeout => HttpTimeout
      end
  | S _ => follow limit ask O req
  end.
Arguments exchange : simpl never.

(** [axios.post] resolves when the exchange ends with a 2xx status and
    rejects with an axios error when it ends with any other status, with
    a network failure or with a timeout. *)
Definition axiosResult {D} (answer : Http D) : Result (AxiosResponse D) :=
  match answer with
  | HttpResponse st d =>
      if ((200 <=? st) && (st <? 300))%Z
      then Return {| status := st; data := d |}
      else Throw (AxiosError (Some st) "Request failed")
  | HttpNetworkFailure m => Throw (AxiosError None m)
  | HttpTimeout => Throw (AxiosError None "timeout exceeded")
  end.

(** [await axios.post<BridgeResponse>(url, payload, config)]. *)
Definition axiosPostJson (url : string) (payload : BridgePayload)
    (config : AxiosConfig) : M (AxiosResponse (option BridgeResponse)) :=
  fun w h =>
    let answer :=
      exchange (maxRedirects w) (orchestrator w h)
        {| method := POST; target := url; sent := Some payload |} in
    (axiosResult answer, [EPostJson url payload config answer]).

(** [await axios.post<TranscribeResponse>(url, form, config)]. *)
Definition axiosPostForm (url : string) (parts : list FormPart)
    (config : AxiosConfig) : M (AxiosResponse (option TranscribeResponse)) :=
  fun w h =>
    let answer :=
      exchange (maxRedirects w) (voiceGateway w h)
        {| method := POST; target := url; sent := Some parts |} in
    (axiosResult answer, [EPostForm url parts config answer]).

(** [await downloadMediaMessage(msg, "buffer", {})]. *)
Definition download (msg : Proto.WebMessageInfo) : M (option Buffer) :=
  fun w h =>
    let answer := downloadMediaMessage w h msg in
    (answer, [EDownload msg answer]).

(** [await sock.sendMessage(jid, { text })]. *)
Definition sockSendMessage (sock : WASocket) (jid txt : string) : M unit :=
  fun w h =>
    let answer := sendMessage w h sock jid txt in
    (answer, [ESendMessage sock jid txt answer]).

(** ** [bridge.ts] *)

Module Bridge.

Definition OPENCLAW_URL (w : World) : string :=
  JS.orDefault (env_OPENCLAW_URL w) "http://openclaw:8000".

Definition logger := "bridge".

(** [forwardToOpenClaw(senderId, content)]. *)
Definition forwardToOpenClaw (senderId content : string)
    : M (option BridgeResponse) :=
  w <- ask ;;
  let url := (OPENCLAW_URL w ++ "/api/v1/message")%string in
  let payload :=
    {| channel := "whatsapp"; sender_id := senderId; content := content |} in
  tryCatch
    (log logger Info "Forwarding message to OpenClaw" ;;
     response <- axiosPostJson url payload
       {| headerContentType := "application/json";
          timeout := 30000;
          maxContentLength := None |} ;;
     log logger Info "OpenClaw response received" ;;
     ret (data response))
    (fun err =>
       (if isAxiosError err
        then log logger Error "Failed to forward message to OpenClaw"
        else log logger Error "Unexpected error forwarding to OpenClaw") ;;
       ret None).

End Bridge.

(** ** [audio-handler.ts] *)

Module AudioHandler.

Definition VOICE_GATEWAY_URL (w : World) : string :=
  JS.orDefault (env_VOICE_GATEWAY_URL w) "http://voice-gateway:8001".

Definition logger := "audio-handler".

(** [response.data?.text?.trim()]. *)
Definition trimmedText (d : option TranscribeResponse) : option string :=
  match d with
  | Some r =>
      match transcript r with
      | Some s => Some (JS.trim s)
      | None => None
      end
  | None => None
  end.

(** [!buffer || buffer.length === 0]. *)
Definition emptyBuffer (buffer : option Buffer) : bool :=
  match buffer with
  | Some b => (List.length b =? 0)%nat
  | None => true
  end.

Definition bytes (buffer : option Buffer) : Buffer :=
  match buffer with
  | Some b => b
  | None => []
  end.

(** [handleAudioMessage(sock, msg)]. *)
Definition handleAudioMessage (sock : WASocket)
    (msg : Proto.WebMessageInfo) : M (option string) :=
  tryCatch
    (log logger Info "Downloading voice message" ;;
     buffer <- download msg ;;
     if emptyBuffer buffer then
       log logger Warn "Downloaded audio buffer is empty" ;;
       ret None
     else
       let audioBuffer := bytes buffer in
       log logger Info
         "Voice message downloaded, sending to transcription service" ;;
       let form :=
         [ {| fieldName := "file"; value := audioBuffer;
              filename := "voice.ogg"; contentType := "audio/ogg" |} ] in
       w <- ask ;;
       let url := (VOICE_GATEWAY_URL w ++ "/api/transcribe")%string in
       response <- axiosPostForm url form
         {| headerContentType := "multipart/form-data";
            timeout := 60000;
            maxContentLength := Some (50 * 1024 * 1024)%Z |} ;;
       match JS.ifTruthy (trimmedText (data response)) with
       | None =>
           log logger Warn "Transcription service returned empty text" ;;
           ret None
       | Some transcribedText =>
           log logger Info "Audio transcription successful" ;;
           ret (Some transcribedText)
       end)
    (fun err =>
       (if isAxiosError err
        then log logger Error "Voice Gateway transcription request failed"
        else log logger Error "Failed to handle audio message") ;;
       ret None).

End AudioHandler.

(** ** [message-handler.ts] *)

Module MessageHandler.

Definition logger := "message-handler".

(** JID of status broadcasts. *)
Definition STATUS_BROADCAST := "status@broadcast".

(** [msg.message?.conversation || msg.message?.extendedTextMessage?.text]. *)
Definition textContent (msg : Proto.WebMessageInfo) : option string :=
  match Proto.message msg with
  | Some m =>
      JS.or (Proto.conversation m)
            (match Proto.extendedTextMessage m with
             | Some e => Proto.text e
             | None => None
             end)
  | None => None
  end.

(** [msg.message?.audioMessage]. *)
Definition audioMessageOf (msg : Proto.WebMessageInfo) : option Proto.AudioMessage :=
  match Proto.message msg with
  | Some m => Proto.audioMessage m
  | None => None
  end.

(** [jid.endsWith("@g.us")]. *)
Definition isGroup (jid : string) : bool := JS.endsWith jid "@g.us".

(** [isGroup ? msg.key.participant || jid : jid]. *)
Definition senderId (msg : Proto.WebMessageInfo) (jid : string) : string :=
  if isGroup jid then JS.orDefault (Proto.participant (Proto.key msg)) jid else jid.

(** [isGroup ? `[group:${jid}] ` : ""]. *)
Definition prefix (jid : string) : string :=
  if isGroup jid then ("[group:" ++ jid ++ "] ")%string else "".

(** [if (response?.text) { await sock.sendMessage(jid, { text: response.text }); }]. *)
Definition sendReply (sock : WASocket) (jid : string)
    (response : option BridgeResponse) : M unit :=
  match response with
  | Some r =>
      match JS.ifTruthy (text r) with
      | Some txt => sockSendMessage sock jid txt
      | None => ret tt
      end
  | None => ret tt
  end.

(** [processMessage(sock, msg)]. *)
Definition processMessage (sock : WASocket) (msg : Proto.WebMessageInfo)
    : M unit :=
  match JS.ifTruthy (Proto.remoteJid (Proto.key msg)) with
  | None => ret tt
  | Some jid =>
      if String.eqb jid STATUS_BROADCAST then
        log logger Debug "Ignoring status broadcast message"
      else if JS.truthyb (Proto.fromMe (Proto.key msg)) then ret tt
      else
        let sender := senderId msg jid in
        log logger Info "Incoming message" ;;
        match JS.ifTruthy (textContent msg) with
        | Some body =>
            let fullContent := (prefix jid ++ body)%string in
            log logger Info "Forwarding text message to OpenClaw" ;;
            response <- Bridge.forwardToOpenClaw sender fullContent ;;
            sendReply sock jid response
        | None =>
            match audioMessageOf msg with
            | Some _ =>
                log logger Info "Received audio message, transcribing" ;;
                transcribed <- AudioHandler.handleAudioMessage sock msg ;;
                match JS.ifTruthy transcribed with
                | Some transcribedText =>
                    let fullContent :=
                      (prefix jid ++ "[voice] " ++ transcribedText)%string in
                    log logger Info
                      "Forwarding transcribed audio to OpenClaw" ;;
                    response <-
                      Bridge.forwardToOpenClaw sender fullContent ;;
                    sendReply sock jid response
                | None =>
                    log logger Warn
                      "Audio transcription returned empty result"
                end
            | None =>
                log logger Debug "Ignoring unsupported message type"
            end
        end
  end.

(** The body of the loop of the [messages.upsert] handler:
    [try { await processMessage(sock, msg); } catch (err) { logger.error(...) }]. *)
Definition processGuarded (sock : WASocket) (msg : Proto.WebMessageInfo)
    : M unit :=
  tryCatch (processMessage sock msg)
           (fun _ => log logger Error "Error processing message").

(** [for (const msg of messages) { ... }]. *)
Fixpoint forEachMessage (sock : WASocket) (messages : list Proto.WebMessageInfo)
    : M unit :=
  match messages with
  | [] => ret tt
  | msg :: rest => processGuarded sock msg ;; forEachMessage sock rest
  end.

(** The handler that [registerMessageHandler(sock)] installs for
    [messages.upsert]: it receives a batch and its delivery type. *)
Definition onMessagesUpsert (sock : WASocket)
    (messages : list Proto.WebMessageInfo) (type : string) : M unit :=
  if negb (String.eqb type "notify") then ret tt
  else forEachMessage sock messages.

End MessageHandler.

(** ** [whatsapp.ts] *)

Module Whatsapp.

(** The fields of a [connection.update] event that the handler reads.
    The status code is reached through
    [(lastDisconnect?.error as Boom)?.output?.statusCode]. *)
Inductive Connection := close | open | connecting.

Record Output := { statusCode : option Z }.
Record Boom := { output : option Output }.
Record LastDisconnect := { error : option Boom }.

Record ConnectionState := {
  connection : option Connection;
  lastDisconnect : option LastDisconnect;
  qr : option string
}.

Definition statusCodeOf (update : ConnectionState) : option Z :=
  match lastDisconnect update with
  | Some ld =>
      match error ld with
      | Some boom =>
          match output boom with
          | Some o => statusCode o
          | None => None
          end
      | None => None
      end
  | None => None
  end.

Definition isClose (c : option Connection) : bool :=
  match c with Some close => true | _ => false end.

Definition isOpen (c : option Connection) : bool :=
  match c with Some open => true | _ => false end.

(** The callback given to [setTimeout]:
    [() => { connectWhatsApp().catch(err => logger.error(...)) }]. *)
Inductive Callback := Reconnect.

Record Timer := { callback : Callback; delay : Z }.

(** Which assignment gave the variable [socket] its current value.
    This is a ghost field: the code does not have it, and no function
    below reads it. *)
Inductive Writer :=
| NeverSet        (* [let socket = null], the initial value *)
| ByConnect       (* [socket = sock] at the end of [connectWhatsApp] *)
| ByOpen          (* [socket = sock] on [connection === "open"] *)
| ByLogout.       (* [socket = null] on a logged-out close *)

(** The state of the module: the variable [socket], the timers that
    [setTimeout] has pending, the sockets made so far (socket [n] is the
    one made by the [n]-th successful connect, and carries the handlers
    registered then), the calls of [connectWhatsApp] so far, the log. *)
Record State := {
  socket : option WASocket;
  timers : list Timer;
  sockets : nat;
  connectCalls : nat;
  logs : list (Level * string);
  lastWrite : Writer
}.

Definition initial : State :=
  {| socket := None; timers := []; sockets := 0; connectCalls := 0;
     logs := []; lastWrite := NeverSet |}.

Definition logLine (level : Level) (msg : string) (st : State) : State :=
  {| socket := socket st; timers := timers st; sockets := sockets st;
     connectCalls := connectCalls st;
     logs := logs st ++ [(level, msg)]; lastWrite := lastWrite st |}.

(** [socket = v], at the place named by [by_]. *)
Definition assignSocket (v : option WASocket) (by_ : Writer) (st : State)
    : State :=
  {| socket := v; timers := timers st; sockets := sockets st;
     connectCalls := connectCalls st; logs := logs st; lastWrite := by_ |}.

(** [setTimeout(callback, delay)]. *)
Definition setTimeout (cb : Callback) (ms : Z) (st : State) : State :=
  {| socket := socket st;
     timers := timers st ++ [{| callback := cb; delay := ms |}];
     sockets := sockets st; connectCalls := connectCalls st;
     logs := logs st; lastWrite := lastWrite st |}.

(** [getSocket()]: returns the variable and leaves the state alone. *)
Definition getSocket (st : State) : option WASocket * State :=
  (socket st, st).


Section Lifecycle.

(** [DisconnectReason.loggedOut], a constant of the transport library. *)
Variable loggedOut : Z.

(** [statusCode !== DisconnectReason.loggedOut]. *)
Definition shouldReconnect (update : ConnectionState) : bool :=
  match statusCodeOf update with
  | Some c => negb (c =? loggedOut)%Z
  | None => true
  end.

(** The [connection.update] handler that [connectWhatsApp] registers
    on the socket [sock] it has just made. *)
Definition onConnectionUpdate (sock : WASocket)
    (update : ConnectionState) (st : State) : State :=
  let st1 :=
    if JS.truthy (qr update)
    then logLine Info
           "QR code generated - scan with WhatsApp to authenticate" st
    else st in
  let st2 :=
    if isClose (connection update) then
      let st' := logLine Warn "WhatsApp connection closed" st1 in
      if shouldReconnect update then
        setTimeout Reconnect 3000
          (logLine Info "Reconnecting to WhatsApp in 3 seconds..." st')
      else
        assignSocket None ByLogout
          (logLine Error
             "Logged out of WhatsApp. Delete the session directory and restart to re-authenticate."
             st')
    else st1 in
  if isOpen (connection update) then
    assignSocket (Some sock) ByOpen
      (logLine Info "WhatsApp connection established successfully" st2)
  else st2.

(** [connectWhatsApp()].  [ok] tells whether loading the credentials
    and fetching the protocol version succeed; if they do not, the
    promise rejects before a socket is made. *)
Definition connectWhatsApp (ok : bool) (st : State)
    : Result WASocket * State :=
  let st0 :=
    {| socket := socket st; timers := timers st; sockets := sockets st;
       connectCalls := S (connectCalls st); logs := logs st;
       lastWrite := lastWrite st |} in
  if ok then
    let sock := sockets st0 in
    let st1 := logLine Info "Using Baileys version" st0 in
    let st2 :=
      {| socket := socket st1; timers := timers st1;
         sockets := S (sockets st1); connectCalls := connectCalls st1;
         logs := logs st1; lastWrite := lastWrite st1 |} in
    (Return sock, assignSocket (Some sock) ByConnect st2)
  else (Throw (OtherError "connect failed"), st0).

(** [initWhatsApp()]. *)
Definition initWhatsApp (dirExists ok : bool) (st : State)
    : Result WASocket * State :=
  let st1 :=
    if negb dirExists then logLine Info "Created session directory" st
    else st in
  connectWhatsApp ok st1.

(** Running a timer callback. *)
Definition runCallback (cb : Callback) (ok : bool) (st : State) : State :=
  match cb with
  | Reconnect =>
      match connectWhatsApp ok st with
      | (Return _, st') => st'
      | (Throw _, st') => logLine Error "Reconnection failed" st'
      end
  end.

(** The oldest pending timer expires. *)
Definition fireTimer (ok : bool) (st : State) : State :=
  match timers st with
  | [] => st
  | tm :: rest =>
      runCallback (callback tm) ok
        {| socket := socket st; timers := rest; sockets := sockets st;
           connectCalls := connectCalls st; logs := logs st;
           lastWrite := lastWrite st |}
  end.

(** What can happen to the module during the life of the process. *)
Inductive Event :=
| Init (dirExists ok : bool)
| ConnectionUpdate (sock : WASocket) (update : ConnectionState)
| TimerExpires (ok : bool)
| GetSocket.

Definition step (ev : Event) (st : State) : State :=
  match ev with
  | Init dirExists ok => snd (initWhatsApp dirExists ok st)
  | ConnectionUpdate sock update =>
      if (sock <? sockets st)%nat then onConnectionUpdate sock update st
      else st
  | TimerExpires ok => fireTimer ok st
  | GetSocket => snd (getSocket st)
  end.

Fixpoint run (events : list Event) (st : State) : State :=
  match events with
  | [] => st
  | ev :: rest => run rest (step ev st)
  end.

End Lifecycle.

End Whatsapp.

(** ** [index.ts] *)

Module Index.

Definition logger := "whatsapp-bridge".

(** The JSON bodies that the two routes answer with. *)
Inductive Json :=
| HealthJson (status : string) (connected : bool)
| SentJson (status : string) (recipient : string)
| ErrorJson (error : string).

(** [res.status(code).json(body)]; [res.json(body)] answers with 200. *)
Record Response := { code : Z; json : Json }.

(** The fields that [POST /api/send] reads from [req.body], each a string
    or missing. *)
Record SendBody := {
  recipient : option string;
  message : option string
}.

(** [GET /health]. *)
Definition health (st : Whatsapp.State) : Response :=
  let sock := fst (Whatsapp.getSocket st) in
  {| code := 200;
     json := HealthJson "ok"
               (match sock with Some _ => true | None => false end) |}.

(** [POST /api/send].  [body] is [req.body]; when it is [undefined] the
    destructuring throws inside the [try].  [st] is the state of
    [whatsapp.ts] when the request is handled. *)
Definition apiSend (st : Whatsapp.State) (body : option SendBody)
    : M Response :=
  tryCatch
    (match body with
     | None =>
         throw (OtherError "Cannot destructure property of undefined")
     | Some b =>
         match JS.ifTruthy (recipient b), JS.ifTruthy (message b) with
         | Some to, Some txt =>
             match fst (Whatsapp.getSocket st) with
             | None =>
                 ret {| code := 503;
                        json := ErrorJson "WhatsApp not connected" |}
             | Some sock =>
                 sockSendMessage sock to txt ;;
                 log logger Info "Message sent to WhatsApp" ;;
                 ret {| code := 200; json := SentJson "sent" to |}
             end
         | _, _ =>
             ret {| code := 400;
                    json := ErrorJson
                      "Missing 'recipient' or 'message' in request body" |}
         end
     end)
    (fun _ =>
       log logger Error "Failed to send WhatsApp message" ;;
       ret {| code := 500; json := ErrorJson "Failed to send message" |}).

End Index.

(** ** Reading a trace *)

Definition isLog (e : Effect) : bool :=
  match e with
  | ELog _ _ _ => true
  | _ => false
  end.

(** The calls to collaborators in a trace: everything but the log lines. *)
Definition external (d : Trace) : Trace :=
  filter (fun e => negb (isLog e)) d.

(** The payloads posted to the orchestrator. *)
Definition forwards (d : Trace) : list BridgePayload :=
  flat_map (fun e =>
    match e with
    | EPostJson _ payload _ _ => [payload]
    | _ => []
    end) d.

(** What [forwardToOpenClaw] makes of the answer to its request: the
    value it returns to its caller. *)
Definition replyOf (answer : Http (option BridgeResponse))
    : option BridgeResponse :=
  match axiosResult answer with
  | Return response => data response
  | Throw _ => None
  end.

(** The orchestrator replies as the callers of [forwardToOpenClaw] get
    them, one for each payload posted. *)
Definition replies (d : Trace) : list (option BridgeResponse) :=
  flat_map (fun e =>
    match e with
    | EPostJson _ _ _ answer => [replyOf answer]
    | _ => []
    end) d.

(** The forms posted to the transcription backend. *)
Definition transcriptions (d : Trace) : list (list FormPart) :=
  flat_map (fun e =>
    match e with
    | EPostForm _ parts _ _ => [parts]
    | _ => []
    end) d.

(** The messages whose media were asked from the transport. *)
Definition downloads (d : Trace) : list Proto.WebMessageInfo :=
  flat_map (fun e =>
    match e with
    | EDownload msg _ => [msg]
    | _ => []
    end) d.

(** The outbound sends: socket, conversation id and text. *)
Definition sends (d : Trace) : list (WASocket * string * string) :=
  flat_map (fun e =>
    match e with
    | ESendMessage sock jid txt _ => [(sock, jid, txt)]
    | _ => []
    end) d.

(** ** Sample inputs *)

Module Sample.

Definition key (jid : string) : Proto.MessageKey :=
  {| Proto.remoteJid := Some jid; Proto.fromMe := Some false;
     Proto.id := Some "MSG1"; Proto.participant := None |}.

Definition groupKey (jid who : string) : Proto.MessageKey :=
  {| Proto.remoteJid := Some jid; Proto.fromMe := Some false;
     Proto.id := Some "MSG2"; Proto.participant := Some who |}.

Definition textMessage (body : string) : Proto.Message :=
  {| Proto.conversation := Some body;
     Proto.extendedTextMessage := None;
     Proto.audioMessage := None |}.

Definition voiceMessage : Proto.Message :=
  {| Proto.conversation := None;
     Proto.extendedTextMessage := None;
     Proto.audioMessage :=
       Some {| Proto.mimetype := Some "audio/ogg; codecs=opus";
               Proto.ptt := Some true |} |}.

Definition textIn (jid body : string) : Proto.WebMessageInfo :=
  {| Proto.key := key jid; Proto.message := Some (textMessage body) |}.

Definition voiceIn (jid : string) : Proto.WebMessageInfo :=
  {| Proto.key := key jid; Proto.message := Some voiceMessage |}.

(** A voice note that also carries a caption. *)
Definition captionedVoiceIn (jid body : string) : Proto.WebMessageInfo :=
  {| Proto.key := key jid;
     Proto.message :=
       Some {| Proto.conversation := Some body;
               Proto.extendedTextMessage := None;
               Proto.audioMessage := Proto.audioMessage voiceMessage |} |}.

(** A text sent to the group [jid] by the participant [who]. *)
Definition groupTextIn (jid who body : string) : Proto.WebMessageInfo :=
  {| Proto.key := groupKey jid who;
     Proto.message := Some (textMessage body) |}.

(** An event that carries neither text nor audio, such as a sticker. *)
Definition stickerIn (jid : string) : Proto.WebMessageInfo :=
  {| Proto.key := key jid;
     Proto.message :=
       Some {| Proto.conversation := None;
               Proto.extendedTextMessage := None;
               Proto.audioMessage := None |} |}.

(** A reply that quotes: the text is in [extendedTextMessage]. *)
Definition quotedTextIn (jid body : string) : Proto.WebMessageInfo :=
  {| Proto.key := key jid;
     Proto.message :=
       Some {| Proto.conversation := None;
               Proto.extendedTextMessage := Some {| Proto.text := Some body |};
               Proto.audioMessage := None |} |}.

Definition answerText (txt : string) : BridgeResponse :=
  {| text := Some txt; metadata := None; error := None |}.

(** A [connection.update] event that reports a close with the status
    code [code]. *)
Definition closed (code : Z) : Whatsapp.ConnectionState :=
  {| Whatsapp.connection := Some Whatsapp.close;
     Whatsapp.lastDisconnect :=
       Some {| Whatsapp.error :=
                 Some {| Whatsapp.output :=
                           Some {| Whatsapp.statusCode := Some code |} |} |};
     Whatsapp.qr := None |}.

Definition opened : Whatsapp.ConnectionState :=
  {| Whatsapp.connection := Some Whatsapp.open;
     Whatsapp.lastDisconnect := None;
     Whatsapp.qr := None |}.

(** The state after a first successful [initWhatsApp()]. *)
Definition connected : Whatsapp.State :=
  snd (Whatsapp.initWhatsApp true true Whatsapp.initial).

(** An orchestrator that answers 200 and echoes the content posted. *)
Definition echo (req : Request BridgePayload)
    : Wire (option BridgeResponse) :=
  WireResponse 200 None
    (Some (answerText
             ("echo: " ++ match sent req with
                          | Some p => content p
                          | None => ""
                          end)%string)).

(** A world in which every collaborator works: the orchestrator echoes
    the content, the transcription backend hears [heard]. *)
Definition friendly (heard : string) : World :=
  {| env_OPENCLAW_URL := None;
     env_VOICE_GATEWAY_URL := None;
     maxRedirects := 21;
     downloadMediaMessage := fun _ _ => Return (Some [x4f; x67; x67; x53]);
     orchestrator := fun _ _ req => echo req;
     voiceGateway := fun _ _ _ =>
       WireResponse 200 None (Some {| transcript := Some heard |});
     sendMessage := fun _ _ _ _ => Return tt |}.

(** A world in which the orchestrator is down and sending fails. *)
Definition hostile : World :=
  {| env_OPENCLAW_URL := None;
     env_VOICE_GATEWAY_URL := None;
     maxRedirects := 21;
     downloadMediaMessage := fun _ _ => Return (Some []);
     orchestrator := fun _ _ _ => WireResponse 503 None None;
     voiceGateway := fun _ _ _ => WireTimeout;
     sendMessage := fun _ _ _ _ => Throw (OtherError "Connection Closed") |}.

(** Both backends have moved: each configured endpoint answers [status]
    with a [Location].  The new orchestrator answers 200 to whatever
    reaches it; the new transcription backend answers 200 to a POST that
    carries a form and 405 to anything else. *)
Definition moved (status : Z) : World :=
  {| env_OPENCLAW_URL := None;
     env_VOICE_GATEWAY_URL := None;
     maxRedirects := 21;
     downloadMediaMessage := fun _ _ => Return (Some [x01]);
     orchestrator := fun _ _ req =>
       if String.eqb (target req) "http://openclaw:8000/api/v1/message"
       then WireResponse status
              (Some "http://openclaw-2:8000/api/v1/message") None
       else WireResponse 200 None (Some (answerText "moved here"));
     voiceGateway := fun _ _ req =>
       if String.eqb (target req) "http://voice-gateway:8001/api/transcribe"
       then WireResponse status
              (Some "http://voice-gateway-2:8001/api/transcribe") None
       else
         match method req, sent req with
         | POST, Some _ =>
             WireResponse 200 None (Some {| transcript := Some "order status" |})
         | _, _ => WireResponse 405 None None
         end;
     sendMessage := fun _ _ _ _ => Return tt |}.

(** Both backends send every request on to another address, for ever. *)
Definition looping : World :=
  {| env_OPENCLAW_URL := None;
     env_VOICE_GATEWAY_URL := None;
     maxRedirects := 21;
     downloadMediaMessage := fun _ _ => Return (Some [x01]);
     orchestrator := fun _ _ req =>
       WireResponse 302 (Some (target req ++ "/")%string) None;
     voiceGateway := fun _ _ req =>
       WireResponse 308 (Some (target req ++ "/")%string) None;
     sendMessage := fun _ _ _ _ => Return tt |}.

(** The orchestrator answers, but the first send of a run fails. *)
Definition firstSendFails : World :=
  {| env_OPENCLAW_URL := None;
     env_VOICE_GATEWAY_URL := None;
     maxRedirects := 21;
     downloadMediaMessage := fun _ _ => Return (Some [x01]);
     orchestrator := fun _ _ req => echo req;
     voiceGateway := fun _ _ _ =>
       WireResponse 200 None (Some {| transcript := Some "hi" |});
     sendMessage := fun h _ _ _ =>
       match sends h with
       | [] => Throw (OtherError "Connection Closed")
       | _ => Return tt
       end |}.

End Sample.

(** ** Vocabulary of the properties *)

(** The event passes the three filters at the head of [processMessage],
    and [jid] is its conversation id. *)
Definition passesFilters (msg : Proto.WebMessageInfo) (jid : string) : Prop :=
  Proto.remoteJid (Proto.key msg) = Some jid /\
  jid <> "" /\
  jid <> MessageHandler.STATUS_BROADCAST /\
  JS.truthyb (Proto.fromMe (Proto.key msg)) = false.

(** The event is stopped by one of the three filters. *)
Definition dropped (msg : Proto.WebMessageInfo) : Prop :=
  JS.ifTruthy (Proto.remoteJid (Proto.key msg)) = None \/
  Proto.remoteJid (Proto.key msg) = Some MessageHandler.STATUS_BROADCAST \/
  JS.truthyb (Proto.fromMe (Proto.key msg)) = true.

(** What the failure boundary of the loop adds when the message threw. *)
Definition boundaryLog (r : Result unit) : Trace :=
  match r with
  | Return _ => []
  | Throw _ => [ELog MessageHandler.logger Error "Error processing message"]
  end.

(** The request that [forwardToOpenClaw] makes, and the answer it gets
    when it is called after the history [h]. *)
Definition forwardUrl (w : World) : string :=
  (Bridge.OPENCLAW_URL w ++ "/api/v1/message")%string.

Definition forwardPayload (senderId content : string) : BridgePayload :=
  {| channel := "whatsapp"; sender_id := senderId; content := content |}.

Definition forwardConfig : AxiosConfig :=
  {| headerContentType := "application/json";
     timeout := 30000;
     maxContentLength := None |}.

Definition forwardRequest (w : World) (senderId content : string)
    : Request BridgePayload :=
  {| method := POST; target := forwardUrl w;
     sent := Some (forwardPayload senderId content) |}.

(** The history at which [forwardToOpenClaw], called after [h], puts its
    request on the wire. *)
Definition whenForwarding (h : Trace) : Trace :=
  h ++ [ELog Bridge.logger Info "Forwarding message to OpenClaw"].

Definition forwardAnswer (w : World) (h : Trace) (senderId content : string)
    : Http (option BridgeResponse) :=
  exchange (maxRedirects w) (orchestrator w (whenForwarding h))
    (forwardRequest w senderId content).

(** The answer is an error: a status outside 2xx, a network failure or a
    timeout. *)
Definition httpError {D} (answer : Http D) : Prop :=
  match answer with
  | HttpResponse st _ => (st < 200 \/ 300 <= st)%Z
  | HttpNetworkFailure _ => True
  | HttpTimeout => True
  end.

(** The answer to a request on the wire is an error that no redirect
    hides: a status outside 2xx that is not followed, a network failure
    or a timeout. *)
Definition wireError {D} (answer : Wire D) : Prop :=
  match answer with
  | WireResponse st loc _ =>
      followed st loc = None /\ (st < 200 \/ 300 <= st)%Z
  | WireFailure _ => True
  | WireTimeout => True
  end.

(** What the configured endpoint itself answers to the request of
    [forwardToOpenClaw], before any redirect. *)
Definition forwardReply (w : World) (h : Trace) (senderId content : string)
    : Wire (option BridgeResponse) :=
  orchestrator w (whenForwarding h) 0 (forwardRequest w senderId content).

(** The send that a reply calls for: one send of its text to [jid] when
    the reply is there and its text is a non-empty string, none otherwise. *)
Definition sendFor (sock : WASocket) (jid : string)
    (reply : option BridgeResponse) : list (WASocket * string * string) :=
  match reply with
  | Some r =>
      match text r with
      | Some txt => if String.eqb txt "" then [] else [(sock, jid, txt)]
      | None => []
      end
  | None => []
  end.

(** The download that [handleAudioMessage] asks for when it is called
    after [h], the request it then makes to the transcription backend
    with the bytes [b], and the answers they get. *)
Definition downloadAnswer (w : World) (h : Trace)
    (msg : Proto.WebMessageInfo) : Result (option Buffer) :=
  downloadMediaMessage w
    (h ++ [ELog AudioHandler.logger Info "Downloading voice message"]) msg.

Definition transcribeUrl (w : World) : string :=
  (AudioHandler.VOICE_GATEWAY_URL w ++ "/api/transcribe")%string.

Definition transcribeForm (b : Buffer) : list FormPart :=
  [ {| fieldName := "file"; value := b;
       filename := "voice.ogg"; contentType := "audio/ogg" |} ].

Definition transcribeRequest (w : World) (b : Buffer)
    : Request (list FormPart) :=
  {| method := POST; target := transcribeUrl w;
     sent := Some (transcribeForm b) |}.

(** The history at which [handleAudioMessage], called after [h] for
    [msg], posts the bytes [b]. *)
Definition whenTranscribing (h : Trace) (msg : Proto.WebMessageInfo)
    (b : Buffer) : Trace :=
  h ++ [ELog AudioHandler.logger Info "Downloading voice message";
        EDownload msg (Return (Some b));
        ELog AudioHandler.logger Info
          "Voice message downloaded, sending to transcription service"].

Definition gatewayAnswer (w : World) (h : Trace)
    (msg : Proto.WebMessageInfo) (b : Buffer)
    : Http (option TranscribeResponse) :=
  exchange (maxRedirects w) (voiceGateway w (whenTranscribing h msg b))
    (transcribeRequest w b).

(** What the configured endpoint itself answers to the request of
    [handleAudioMessage], before any redirect. *)
Definition gatewayReply (w : World) (h : Trace)
    (msg : Proto.WebMessageInfo) (b : Buffer)
    : Wire (option TranscribeResponse) :=
  voiceGateway w (whenTranscribing h msg b) 0 (transcribeRequest w b).

(** The download is empty or failed. *)
Definition noAudio (answer : Result (option Buffer)) : Prop :=
  match answer with
  | Return (Some b) => b = []
  | Return None => True
  | Throw _ => True
  end.

(** The first line that [processMessage] logs for an event that passes
    the filters. *)
Definition incoming : Effect :=
  ELog MessageHandler.logger Info "Incoming message".

(** The history at which [processMessage], run after [h], calls
    [handleAudioMessage], and the outcome of that call. *)
Definition beforeTranscription (h : Trace) : Trace :=
  h ++ [ELog MessageHandler.logger Info "Incoming message";
        ELog MessageHandler.logger Info "Received audio message, transcribing"].

Definition transcription (w : World) (h : Trace) (sock : WASocket)
    (msg : Proto.WebMessageInfo) : Result (option string) :=
  result (AudioHandler.handleAudioMessage sock msg) w (beforeTranscription h).

(** The variable [socket] is [null] exactly when its last writer wrote
    [null]. *)
Definition consistent (st : Whatsapp.State) : Prop :=
  match Whatsapp.lastWrite st with
  | Whatsapp.NeverSet | Whatsapp.ByLogout => Whatsapp.socket st = None
  | Whatsapp.ByConnect | Whatsapp.ByOpen => Whatsapp.socket st <> None
  end.

(** The variable [socket] has its initial value exactly when no connect
    has succeeded yet. *)
Definition grounded (st : Whatsapp.State) : Prop :=
  Whatsapp.lastWrite st = Whatsapp.NeverSet <-> Whatsapp.sockets st = 0%nat.

(** The event is a close with the logged-out code. *)
Definition isLogout (loggedOut : Z) (ev : Whatsapp.Event) : Prop :=
  match ev with
  | Whatsapp.ConnectionUpdate _ update =>
      Whatsapp.connection update = Some Whatsapp.close /\
      Whatsapp.statusCodeOf update = Some loggedOut
  | _ => False
  end.

(** The configuration of the request to the transcription backend. *)
Definition transcribeConfig : AxiosConfig :=
  {| headerContentType := "multipart/form-data";
     timeout := 60000;
     maxContentLength := Some (50 * 1024 * 1024)%Z |}.

(** What the handler registered on [sock] is found to do, entry by entry:
    its requests go to the two configured endpoints with the fixed
    configurations, a forwarded payload names the channel, a sender and a
    content, the audio posted is not empty, and a send goes out on [sock],
    to a conversation that passes the filters, with a text. *)
Definition wellFormed (w : World) (sock : WASocket) (e : Effect) : Prop :=
  match e with
  | ELog _ _ _ => True
  | EDownload _ _ => True
  | EPostJson url p cfg _ =>
      url = forwardUrl w /\ cfg = forwardConfig /\
      channel p = "whatsapp" /\ sender_id p <> "" /\ content p <> ""
  | EPostForm url parts cfg _ =>
      url = transcribeUrl w /\ cfg = transcribeConfig /\
      exists b, b <> [] /\ parts = transcribeForm b
  | ESendMessage s jid txt _ =>
      s = sock /\ jid <> "" /\ jid <> MessageHandler.STATUS_BROADCAST /\
      txt <> ""
  end.

(** The timer that the close handler schedules. *)
Definition reconnectTimer : Whatsapp.Timer :=
  {| Whatsapp.callback := Whatsapp.Reconnect; Whatsapp.delay := 3000 |}.

(** The event is a call of [initWhatsApp]. *)
Definition isInit (ev : Whatsapp.Event) : bool :=
  match ev with
  | Whatsapp.Init _ _ => true
  | _ => false
  end.

(** The event is a close with a code other than the logged-out one. *)
Definition isTransientClose (loggedOut : Z) (ev : Whatsapp.Event) : bool :=
  match ev with
  | Whatsapp.ConnectionUpdate _ update =>
      Whatsapp.isClose (Whatsapp.connection update) &&
      Whatsapp.shouldReconnect loggedOut update
  | _ => false
  end.

(** The event comes from neither the transport nor the start of the
    process: a timer expires or the handle is read. *)
Definition isInternal (ev : Whatsapp.Event) : bool :=
  match ev with
  | Whatsapp.TimerExpires _ => true
  | Whatsapp.GetSocket => true
  | _ => false
  end.




(** The handle names a socket that was made, every socket was made by a
    call of [connectWhatsApp], and every pending timer is the one that
    the close handler schedules. *)
Definition sound (st : Whatsapp.State) : Prop :=
  (forall s, Whatsapp.socket st = Some s -> (s < Whatsapp.sockets st)%nat) /\
  (Whatsapp.sockets st <= Whatsapp.connectCalls st)%nat /\
  Forall (eq reconnectTimer) (Whatsapp.timers st).

(** The first and the last character of a string. *)
Definition firstChar (s : string) : option ascii :=
  match s with
  | EmptyString => None
  | String c _ => Some c
  end.

Fixpoint lastChar (s : string) : option ascii :=
  match s with
  | EmptyString => None
  | String c EmptyString => Some c
  | String _ r => lastChar r
  end.

(** * Properties *)

(** ** The primitives on examples *)

Example endsWith_examples :
  JS.endsWith "123@g.us" "@g.us" = true /\
  JS.endsWith "15551234567@s.whatsapp.net" "@g.us" = false /\
  JS.endsWith "g.us" "@g.us" = false /\
  JS.endsWith "@g.us.example" "@g.us" = false.
Proof. repeat split. Qed.

Example trim_examples :
  JS.trim (String "009" " order status  ") = "order status" /\
  JS.trim (String "010" (String "013" "  ")) = "" /\
  JS.trim "a  b" = "a  b".
Proof. repeat split. Qed.

Example or_examples :
  JS.or (Some "") (Some "quoted") = Some "quoted" /\
  JS.or (Some "plain") (Some "quoted") = Some "plain" /\
  JS.or None None = None /\
  JS.orDefault (Some "") "fallback" = "fallback".
Proof. repeat split. Qed.

(** ** Reading a trace that is built in pieces *)

Lemma external_app (a b : Trace) : external (a ++ b) = external a ++ external b.
Proof. apply filter_app. Qed.

Lemma forwards_app (a b : Trace) : forwards (a ++ b) = forwards a ++ forwards b.
Proof. apply flat_map_app. Qed.

Lemma replies_app (a b : Trace) : replies (a ++ b) = replies a ++ replies b.
Proof. apply flat_map_app. Qed.

Lemma sends_app (a b : Trace) : sends (a ++ b) = sends a ++ sends b.
Proof. apply flat_map_app. Qed.

Lemma transcriptions_app (a b : Trace) :
  transcriptions (a ++ b) = transcriptions a ++ transcriptions b.
Proof. apply flat_map_app. Qed.

Lemma downloads_app (a b : Trace) :
  downloads (a ++ b) = downloads a ++ downloads b.
Proof. apply flat_map_app. Qed.

(** ** The batch loop *)

Section Batch.

Import MessageHandler.

Variable w : World.
Variable sock : WASocket.

Lemma processGuarded_eq msg h :
  processGuarded sock msg w h =
  (Return tt,
   effects (processMessage sock msg) w h
     ++ boundaryLog (result (processMessage sock msg) w h)).
Proof.
  unfold processGuarded, tryCatch, effects, result.
  destruct (processMessage sock msg w h) as [[[]|e] d]; simpl.
  - now rewrite app_nil_r.
  - reflexivity.
Qed.

Lemma effects_processGuarded msg h :
  effects (processGuarded sock msg) w h =
  effects (processMessage sock msg) w h
    ++ boundaryLog (result (processMessage sock msg) w h).
Proof. unfold effects at 1. now rewrite processGuarded_eq. Qed.

Lemma forEachMessage_returns msgs :
  forall h, result (forEachMessage sock msgs) w h = Return tt.
Proof.
  induction msgs as [|m rest IH]; intros h; [reflexivity|].
  unfold result in *. simpl. unfold bind at 1.
  rewrite processGuarded_eq. simpl. apply IH.
Qed.

Lemma forEachMessage_cons m rest h :
  effects (forEachMessage sock (m :: rest)) w h =
  effects (processGuarded sock m) w h
    ++ effects (forEachMessage sock rest) w
         (h ++ effects (processGuarded sock m) w h).
Proof.
  unfold effects. simpl. unfold bind at 1.
  rewrite processGuarded_eq. reflexivity.
Qed.

Lemma forEachMessage_app pre post :
  forall h,
    effects (forEachMessage sock (pre ++ post)) w h =
    effects (forEachMessage sock pre) w h
      ++ effects (forEachMessage sock post) w
           (h ++ effects (forEachMessage sock pre) w h).
Proof.
  induction pre as [|m pre IH]; intros h.
  - simpl. unfold effects at 2 3. simpl. now rewrite app_nil_r.
  - rewrite <- app_comm_cons, !forEachMessage_cons, IH.
    now rewrite <- !app_assoc.
Qed.

Lemma effects_onMessagesUpsert_notify msgs h :
  effects (onMessagesUpsert sock msgs "notify") w h =
  effects (forEachMessage sock msgs) w h.
Proof. reflexivity. Qed.

Lemma onMessagesUpsert_other msgs type h :
  type <> "notify" -> onMessagesUpsert sock msgs type w h = (Return tt, []).
Proof.
  intros H. unfold onMessagesUpsert.
  destruct (String.eqb_spec type "notify") as [E|E]; [contradiction|].
  reflexivity.
Qed.

Lemma onMessagesUpsert_returns msgs type h :
  result (onMessagesUpsert sock msgs type) w h = Return tt.
Proof.
  unfold onMessagesUpsert.
  destruct (String.eqb type "notify"); simpl.
  - apply forEachMessage_returns.
  - reflexivity.
Qed.

End Batch.

(** ** Filtered events *)

Lemma dropped_or_passes msg :
  dropped msg \/ exists jid, passesFilters msg jid.
Proof.
  unfold dropped, passesFilters, JS.ifTruthy, JS.truthy.
  destruct (Proto.remoteJid (Proto.key msg)) as [jid|]; [|now left; left].
  destruct (String.eqb_spec jid "") as [->|Hne]; [now left; left|].
  destruct (String.eqb_spec jid MessageHandler.STATUS_BROADCAST) as [->|Hsb];
    [now left; right; left|].
  destruct (JS.truthyb (Proto.fromMe (Proto.key msg))) eqn:Hme;
    [now left; right; right|].
  right. exists jid. repeat split; assumption.
Qed.

Lemma processMessage_of_dropped w sock msg h :
  dropped msg ->
  result (MessageHandler.processMessage sock msg) w h = Return tt /\
  external (effects (MessageHandler.processMessage sock msg) w h) = [].
Proof.
  unfold result, effects, MessageHandler.processMessage.
  intros [H | [H | H]].
  - rewrite H. split; reflexivity.
  - rewrite H. split; reflexivity.
  - rewrite H.
    destruct (JS.ifTruthy (Proto.remoteJid (Proto.key msg))) as [jid|];
      [|split; reflexivity].
    destruct (String.eqb jid MessageHandler.STATUS_BROADCAST);
      split; reflexivity.
Qed.

Lemma only_logs (d : Trace) :
  external d = [] ->
  downloads d = [] /\ transcriptions d = [] /\ forwards d = [] /\
  replies d = [] /\ sends d = [].
Proof.
  induction d as [|e d IH]; [repeat split|].
  destruct e; cbn; try discriminate; exact IH.
Qed.

Lemma filtered_is_dropped msg :
  Proto.remoteJid (Proto.key msg) = None \/
  Proto.remoteJid (Proto.key msg) = Some "status@broadcast" \/
  Proto.fromMe (Proto.key msg) = Some true ->
  dropped msg.
Proof.
  unfold dropped. intros [H | [H | H]]; rewrite H; auto.
Qed.

(** C2.  An event of a batch whose type is not ["notify"], or whose
    conversation id is missing or is ["status@broadcast"], or which is
    flagged as sent by us, has no side effect: the batch that ends with it
    makes exactly the calls to collaborators (media download, transcription
    request, forward to the orchestrator, outbound send) that the batch
    without it makes, and the handler returns normally.  When the batch is
    live, [processMessage] on such an event makes no call at all, whatever
    happened before. *)
Theorem filtered_event_has_no_side_effect :
  forall (w : World) (h : Trace) (sock : WASocket) (type : string)
         (earlier : list Proto.WebMessageInfo) (msg : Proto.WebMessageInfo),
    type <> "notify" \/
    Proto.remoteJid (Proto.key msg) = None \/
    Proto.remoteJid (Proto.key msg) = Some "status@broadcast" \/
    Proto.fromMe (Proto.key msg) = Some true ->
    let before := effects (MessageHandler.onMessagesUpsert sock earlier type) w h in
    let after :=
      effects (MessageHandler.onMessagesUpsert sock (earlier ++ [msg]) type) w h in
    result (MessageHandler.onMessagesUpsert sock (earlier ++ [msg]) type) w h
      = Return tt /\
    external after = external before /\
    downloads after = downloads before /\
    transcriptions after = transcriptions before /\
    forwards after = forwards before /\
    sends after = sends before /\
    (type = "notify" ->
     forall h',
       result (MessageHandler.processMessage sock msg) w h' = Return tt /\
       external (effects (MessageHandler.processMessage sock msg) w h') = []).
Proof.
  intros w h sock type earlier msg H before after.
  split; [apply onMessagesUpsert_returns|].
  assert (E : exists logs, after = before ++ logs /\ external logs = []).
  { subst before after.
    destruct (String.eqb_spec type "notify") as [->|Hn].
    - destruct H as [H|H]; [congruence|].
      apply filtered_is_dropped in H.
      rewrite !effects_onMessagesUpsert_notify, forEachMessage_app.
      eexists; split; [reflexivity|].
      rewrite forEachMessage_cons.
      change (effects (MessageHandler.forEachMessage sock []) w ?x)
        with (@nil Effect).
      rewrite app_nil_r, effects_processGuarded, external_app.
      destruct (processMessage_of_dropped w sock msg
                  (h ++ effects (MessageHandler.forEachMessage sock earlier) w h) H)
        as [R X].
      rewrite X, R. reflexivity.
    - unfold effects. rewrite !onMessagesUpsert_other by assumption.
      exists []. split; reflexivity. }
  destruct E as [logs [-> X]].
  destruct (only_logs logs X) as (Dl & T & F & _ & S).
  rewrite external_app, downloads_app, transcriptions_app, forwards_app,
    sends_app, X, Dl, T, F, S, !app_nil_r.
  repeat split.
  - destruct H as [H|H]; [congruence|].
    apply (processMessage_of_dropped w sock msg h'), filtered_is_dropped, H.
  - destruct H as [H|H]; [congruence|].
    apply (processMessage_of_dropped w sock msg h'), filtered_is_dropped, H.
Qed.

Lemma filtered_event_has_no_side_effect_witness :
  let broadcast := Sample.textIn "status@broadcast" "story" in
  Proto.remoteJid (Proto.key broadcast) = Some "status@broadcast" /\
  external
    (effects (MessageHandler.onMessagesUpsert 0 ([] ++ [broadcast]) "notify")
       (Sample.friendly "") []) =
  external
    (effects (MessageHandler.onMessagesUpsert 0 [] "notify")
       (Sample.friendly "") []).
Proof.
  cbv zeta. split; [reflexivity|].
  apply (proj1 (proj2
    (filtered_event_has_no_side_effect (Sample.friendly "") [] 0 "notify" []
       (Sample.textIn "status@broadcast" "story")
       (or_intror (or_intror (or_introl eq_refl)))))).
Defined.

(** C7.  In a live batch, whatever happens while one event is processed,
    also an exception, the events after it are processed: the handler runs
    the earlier events, then the event inside its own failure boundary
    (which logs the exception, if any), then the later events exactly as
    it would run them as a batch of their own from there on; and the
    handler itself returns normally. *)
Theorem failure_does_not_abort_batch :
  forall (w : World) (h : Trace) (sock : WASocket)
         (earlier : list Proto.WebMessageInfo) (msg : Proto.WebMessageInfo)
         (later : list Proto.WebMessageInfo),
    let d1 := effects (MessageHandler.onMessagesUpsert sock earlier "notify") w h in
    let r := result (MessageHandler.processMessage sock msg) w (h ++ d1) in
    let d2 :=
      effects (MessageHandler.processMessage sock msg) w (h ++ d1)
        ++ boundaryLog r in
    MessageHandler.onMessagesUpsert sock (earlier ++ msg :: later) "notify" w h =
    (Return tt,
     d1 ++ d2 ++
     effects (MessageHandler.onMessagesUpsert sock later "notify") w
       (h ++ d1 ++ d2)).
Proof.
  intros w h sock earlier msg later d1 r d2.
  rewrite (surjective_pairing (MessageHandler.onMessagesUpsert _ _ _ _ _)).
  f_equal.
  - apply onMessagesUpsert_returns.
  - subst d1 r d2.
    fold (effects (MessageHandler.onMessagesUpsert sock
                     (earlier ++ msg :: later) "notify") w h).
    rewrite !effects_onMessagesUpsert_notify.
    rewrite forEachMessage_app, forEachMessage_cons, effects_processGuarded.
    rewrite <- !app_assoc. reflexivity.
Qed.

(** The failure boundary is needed: a send that fails makes
    [processMessage] throw.  In this run the first of two events throws
    and the second is still forwarded and answered. *)
Example second_event_survives_first :
  let batch := [Sample.textIn "a@s.whatsapp.net" "one";
                Sample.textIn "b@s.whatsapp.net" "two"] in
  result (MessageHandler.processMessage 0 (Sample.textIn "a@s.whatsapp.net" "one"))
    Sample.firstSendFails [] = Throw (OtherError "Connection Closed") /\
  result (MessageHandler.onMessagesUpsert 0 batch "notify")
    Sample.firstSendFails [] = Return tt /\
  forwards (effects (MessageHandler.onMessagesUpsert 0 batch "notify")
              Sample.firstSendFails []) =
    [forwardPayload "a@s.whatsapp.net" "one";
     forwardPayload "b@s.whatsapp.net" "two"] /\
  sends (effects (MessageHandler.onMessagesUpsert 0 batch "notify")
           Sample.firstSendFails []) =
    [(0, "a@s.whatsapp.net", "echo: one"); (0, "b@s.whatsapp.net", "echo: two")].
Proof. vm_compute. repeat split. Qed.

(** ** The forwarder *)

Lemma forwardToOpenClaw_eq w h senderId content :
  Bridge.forwardToOpenClaw senderId content w h =
  (Return (replyOf (forwardAnswer w h senderId content)),
   [ELog Bridge.logger Info "Forwarding message to OpenClaw";
    EPostJson (forwardUrl w) (forwardPayload senderId content) forwardConfig
      (forwardAnswer w h senderId content);
    match axiosResult (forwardAnswer w h senderId content) with
    | Return _ => ELog Bridge.logger Info "OpenClaw response received"
    | Throw _ =>
        ELog Bridge.logger Error "Failed to forward message to OpenClaw"
    end]).
Proof.
  unfold Bridge.forwardToOpenClaw, forwardAnswer, forwardRequest,
    whenForwarding, replyOf.
  unfold bind, tryCatch, ask, log, axiosPostJson, ret.
  cbn [fst snd app].
  rewrite app_nil_r.
  fold (forwardUrl w). fold (forwardPayload senderId content).
  destruct (exchange _ _ _) as [st d|m|]; cbn [axiosResult];
    [destruct ((200 <=? st) && (st <? 300))%Z|..]; reflexivity.
Qed.

Lemma replyOf_success st body :
  (200 <= st < 300)%Z -> replyOf (HttpResponse st body) = body.
Proof.
  intros [H1 H2]. unfold replyOf, axiosResult.
  apply Z.leb_le in H1. apply Z.ltb_lt in H2. now rewrite H1, H2.
Qed.

Lemma replyOf_error (answer : Http (option BridgeResponse)) :
  httpError answer -> replyOf answer = None.
Proof.
  destruct answer as [st d|m|]; try reflexivity.
  unfold httpError, replyOf, axiosResult. intros H.
  destruct (Z.leb_spec 200 st); destruct (Z.ltb_spec st 300);
    try reflexivity; lia.
Qed.

Lemma sendReply_eq w h sock jid reply :
  sends (effects (MessageHandler.sendReply sock jid reply) w h)
    = sendFor sock jid reply /\
  external (effects (MessageHandler.sendReply sock jid reply) w h)
    = effects (MessageHandler.sendReply sock jid reply) w h /\
  forwards (effects (MessageHandler.sendReply sock jid reply) w h) = [] /\
  replies (effects (MessageHandler.sendReply sock jid reply) w h) = [] /\
  downloads (effects (MessageHandler.sendReply sock jid reply) w h) = [] /\
  transcriptions (effects (MessageHandler.sendReply sock jid reply) w h) = [] /\
  (sendFor sock jid reply = [] ->
   MessageHandler.sendReply sock jid reply w h = (Return tt, [])).
Proof.
  unfold MessageHandler.sendReply, sendFor, effects.
  destruct reply as [r|]; [|repeat split].
  destruct (text r) as [txt|]; [|repeat split].
  unfold JS.ifTruthy, JS.truthy.
  destruct (String.eqb txt ""); cbn; repeat split. discriminate.
Qed.

(** ** The transcription adapter *)

Ltac run_m :=
  unfold bind, tryCatch, ask, log, ret, download, axiosPostForm,
    axiosPostJson, sockSendMessage;
  cbn [fst snd app].

Lemma handleAudioMessage_cases w h sock msg :
  let r := result (AudioHandler.handleAudioMessage sock msg) w h in
  let d := effects (AudioHandler.handleAudioMessage sock msg) w h in
  r = match downloadAnswer w h msg with
      | Return (Some (x :: b)) =>
          match axiosResult (gatewayAnswer w h msg (x :: b)) with
          | Return response =>
              Return (JS.ifTruthy (AudioHandler.trimmedText (data response)))
          | Throw _ => Return None
          end
      | _ => Return None
      end /\
  transcriptions d =
    match downloadAnswer w h msg with
    | Return (Some (x :: b)) => [transcribeForm (x :: b)]
    | _ => []
    end /\
  downloads d = [msg] /\
  forwards d = [] /\ replies d = [] /\ sends d = [].
Proof.
  unfold result, effects, AudioHandler.handleAudioMessage, downloadAnswer,
    gatewayAnswer, whenTranscribing, transcribeRequest.
  run_m.
  destruct (downloadMediaMessage w _ msg) as [[[|x b]|]|e]; cbn.
  - repeat split.
  - rewrite app_nil_r. repeat (rewrite <- app_assoc; cbn [app]).
    fold (transcribeUrl w). fold (transcribeForm (x :: b)).
    destruct (exchange _ _ _) as [st data|m|]; cbn [axiosResult].
    + destruct ((200 <=? st) && (st <? 300))%Z; cbn.
      * destruct (JS.ifTruthy (AudioHandler.trimmedText data)); cbn;
          repeat split.
      * repeat split.
    + cbn. repeat split.
    + cbn. repeat split.
  - repeat split.
  - destruct (isAxiosError e); repeat split.
Qed.

(** ** The router, path by path *)

Lemma run_bind {A B} (m : M A) (k : A -> M B) w h :
  bind m k w h =
  match m w h with
  | (Return a, d) => (fst (k a w (h ++ d)), d ++ snd (k a w (h ++ d)))
  | (Throw e, d) => (Throw e, d)
  end.
Proof. reflexivity. Qed.

Lemma run_log_bind {A} l lv s (k : M A) w h :
  (log l lv s ;; k) w h =
  (fst (k w (h ++ [ELog l lv s])), ELog l lv s :: snd (k w (h ++ [ELog l lv s]))).
Proof. reflexivity. Qed.

Section Paths.

Import MessageHandler.

Variable w : World.
Variable h : Trace.
Variable sock : WASocket.
Variable msg : Proto.WebMessageInfo.
Variable jid : string.
Hypothesis passes : passesFilters msg jid.

Lemma processMessage_passes :
  processMessage sock msg w h =
  (log logger Info "Incoming message" ;;
   match JS.ifTruthy (textContent msg) with
   | Some body =>
       log logger Info "Forwarding text message to OpenClaw" ;;
       response <-
         Bridge.forwardToOpenClaw (senderId msg jid) (prefix jid ++ body)%string ;;
       sendReply sock jid response
   | None =>
       match audioMessageOf msg with
       | Some _ =>
           log logger Info "Received audio message, transcribing" ;;
           transcribed <- AudioHandler.handleAudioMessage sock msg ;;
           match JS.ifTruthy transcribed with
           | Some transcribedText =>
               log logger Info "Forwarding transcribed audio to OpenClaw" ;;
               response <-
                 Bridge.forwardToOpenClaw (senderId msg jid)
                   (prefix jid ++ "[voice] " ++ transcribedText)%string ;;
               sendReply sock jid response
           | None =>
               log logger Warn "Audio transcription returned empty result"
           end
       | None => log logger Debug "Ignoring unsupported message type"
       end
   end) w h.
Proof.
  destruct passes as (Hjid & Hne & Hsb & Hme).
  unfold processMessage. rewrite Hjid, Hme.
  unfold JS.ifTruthy at 1, JS.truthy.
  apply String.eqb_neq in Hne, Hsb.
  rewrite Hne. cbn [negb]. rewrite Hsb. reflexivity.
Qed.

(** The text path. *)
Lemma processMessage_text body :
  JS.ifTruthy (textContent msg) = Some body ->
  let hf := h ++ [incoming;
                  ELog logger Info "Forwarding text message to OpenClaw"] in
  let sender := senderId msg jid in
  let content := (prefix jid ++ body)%string in
  let df := effects (Bridge.forwardToOpenClaw sender content) w hf in
  let reply := replyOf (forwardAnswer w hf sender content) in
  processMessage sock msg w h =
  (result (sendReply sock jid reply) w (hf ++ df),
   [incoming; ELog logger Info "Forwarding text message to OpenClaw"]
     ++ df ++ effects (sendReply sock jid reply) w (hf ++ df)).
Proof.
  intros Hb hf sender content df reply.
  rewrite processMessage_passes, Hb.
  subst df reply. unfold effects, result.
  unfold bind at 1 2 3, log. cbn [fst snd app].
  subst hf. repeat (rewrite <- app_assoc; cbn [app]).
  rewrite !forwardToOpenClaw_eq. cbn [fst snd app].
  repeat (rewrite <- app_assoc; cbn [app]). reflexivity.
Qed.

(** The voice path. *)
Lemma processMessage_voice audio :
  JS.ifTruthy (textContent msg) = None ->
  audioMessageOf msg = Some audio ->
  let ha := beforeTranscription h in
  let da := effects (AudioHandler.handleAudioMessage sock msg) w ha in
  let heard :=
    [incoming; ELog logger Info "Received audio message, transcribing"]
      ++ da in
  processMessage sock msg w h =
  match transcription w h sock msg with
  | Return transcribed =>
      match JS.ifTruthy transcribed with
      | Some transcribedText =>
          let note :=
            ELog logger Info "Forwarding transcribed audio to OpenClaw" in
          let hf := h ++ heard ++ [note] in
          let sender := senderId msg jid in
          let content :=
            (prefix jid ++ "[voice] " ++ transcribedText)%string in
          let df := effects (Bridge.forwardToOpenClaw sender content) w hf in
          let reply := replyOf (forwardAnswer w hf sender content) in
          (result (sendReply sock jid reply) w (hf ++ df),
           heard ++ [note] ++ df
             ++ effects (sendReply sock jid reply) w (hf ++ df))
      | None =>
          (Return tt,
           heard ++
           [ELog logger Warn "Audio transcription returned empty result"])
      end
  | Throw e => (Throw e, heard)
  end.
Proof.
  intros Hb Ha ha da heard.
  rewrite processMessage_passes, Hb, Ha.
  subst heard da ha. unfold transcription, effects, result.
  rewrite !run_log_bind. cbn [fst snd].
  rewrite <- !app_assoc. cbn [app].
  change (h ++ [ELog logger Info "Incoming message";
                ELog logger Info "Received audio message, transcribing"])
    with (beforeTranscription h).
  rewrite !run_bind.
  destruct (AudioHandler.handleAudioMessage sock msg w (beforeTranscription h))
    as [[tr|e] da]; cbn [fst snd]; [|reflexivity].
  destruct (JS.ifTruthy tr) as [T|]; [|reflexivity].
  rewrite !run_log_bind. cbn [fst snd]. rewrite !run_bind.
  unfold beforeTranscription.
  repeat (rewrite <- app_assoc; cbn [app]).
  rewrite !forwardToOpenClaw_eq. cbn [fst snd app].
  repeat (rewrite <- app_assoc; cbn [app]). reflexivity.
Qed.

(** Neither text nor audio. *)
Lemma processMessage_unsupported :
  JS.ifTruthy (textContent msg) = None ->
  audioMessageOf msg = None ->
  processMessage sock msg w h =
  (Return tt,
   [incoming; ELog logger Debug "Ignoring unsupported message type"]).
Proof.
  intros Hb Ha. rewrite processMessage_passes, Hb, Ha. reflexivity.
Qed.

End Paths.

Lemma forward_observed w h senderId content :
  let d := effects (Bridge.forwardToOpenClaw senderId content) w h in
  external d =
    [EPostJson (forwardUrl w) (forwardPayload senderId content) forwardConfig
       (forwardAnswer w h senderId content)] /\
  forwards d = [forwardPayload senderId content] /\
  replies d = [replyOf (forwardAnswer w h senderId content)] /\
  downloads d = [] /\ transcriptions d = [] /\ sends d = [].
Proof.
  unfold effects. rewrite forwardToOpenClaw_eq. cbn [snd].
  destruct (axiosResult (forwardAnswer w h senderId content));
    repeat split.
Qed.

Section Observed.

Import MessageHandler.

Variable w : World.
Variable h : Trace.
Variable sock : WASocket.
Variable msg : Proto.WebMessageInfo.
Variable jid : string.
Hypothesis passes : passesFilters msg jid.

(** What the text path does, as far as the collaborators see it. *)
Lemma text_observed body :
  JS.ifTruthy (textContent msg) = Some body ->
  exists reply,
    forwards (effects (processMessage sock msg) w h) =
      [forwardPayload (senderId msg jid) (prefix jid ++ body)] /\
    replies (effects (processMessage sock msg) w h) = [reply] /\
    sends (effects (processMessage sock msg) w h) = sendFor sock jid reply /\
    downloads (effects (processMessage sock msg) w h) = [] /\
    transcriptions (effects (processMessage sock msg) w h) = [] /\
    (sendFor sock jid reply = [] ->
     result (processMessage sock msg) w h = Return tt).
Proof.
  intros Hb. unfold effects, result.
  rewrite (processMessage_text w h sock msg jid passes body Hb).
  cbn [fst snd].
  set (hf := h ++ _).
  set (sender := senderId msg jid). set (content := (prefix jid ++ body)%string).
  set (reply := replyOf (forwardAnswer w hf sender content)).
  set (df := effects (Bridge.forwardToOpenClaw sender content) w hf).
  destruct (forward_observed w hf sender content)
    as (_ & F & R & Dl & T & S).
  destruct (sendReply_eq w (hf ++ df) sock jid reply)
    as (S' & _ & F' & R' & Dl' & T' & N).
  exists reply.
  rewrite !forwards_app, !replies_app, !sends_app, !downloads_app,
    !transcriptions_app.
  fold df in F, R, Dl, T, S.
  rewrite F, R, Dl, T, S, F', R', Dl', T', S'.
  repeat split. intros E. unfold result. rewrite (N E). reflexivity.
Qed.

(** What the voice path does once the transcription has returned. *)
Lemma voice_observed audio :
  JS.ifTruthy (textContent msg) = None ->
  audioMessageOf msg = Some audio ->
  downloads (effects (processMessage sock msg) w h) = [msg] /\
  transcriptions (effects (processMessage sock msg) w h) =
    transcriptions
      (effects (AudioHandler.handleAudioMessage sock msg) w
         (beforeTranscription h)) /\
  match transcription w h sock msg with
  | Return transcribed =>
      match JS.ifTruthy transcribed with
      | Some transcribedText =>
          exists reply,
            forwards (effects (processMessage sock msg) w h) =
              [forwardPayload (senderId msg jid)
                 (prefix jid ++ "[voice] " ++ transcribedText)] /\
            replies (effects (processMessage sock msg) w h) = [reply] /\
            sends (effects (processMessage sock msg) w h) =
              sendFor sock jid reply /\
            (sendFor sock jid reply = [] ->
             result (processMessage sock msg) w h = Return tt)
      | None =>
          forwards (effects (processMessage sock msg) w h) = [] /\
          replies (effects (processMessage sock msg) w h) = [] /\
          sends (effects (processMessage sock msg) w h) = [] /\
          result (processMessage sock msg) w h = Return tt
      end
  | Throw _ => False
  end.
Proof.
  intros Hb Ha. unfold result.
  change (effects (processMessage sock msg) w h)
    with (snd (processMessage sock msg w h)).
  rewrite (processMessage_voice w h sock msg jid passes audio Hb Ha).
  destruct (handleAudioMessage_cases w (beforeTranscription h) sock msg)
    as (Hr & _ & Dl & F & R & S).
  fold (transcription w h sock msg) in Hr.
  set (da := effects (AudioHandler.handleAudioMessage sock msg) w
               (beforeTranscription h)) in *.
  assert (Ht : exists x, transcription w h sock msg = Return x).
  { rewrite Hr. destruct (downloadAnswer _ _ _) as [[[|? ?]|]|]; eauto.
    destruct (axiosResult _); eauto. }
  destruct Ht as [tr Ht]. rewrite Ht.
  destruct (JS.ifTruthy tr) as [T|]; cbn [fst snd].
  - set (hf := h ++ _).
    set (sender := senderId msg jid).
    set (content := (prefix jid ++ "[voice] " ++ T)%string).
    set (reply := replyOf (forwardAnswer w hf sender content)).
    set (df := effects (Bridge.forwardToOpenClaw sender content) w hf).
    destruct (forward_observed w hf sender content)
      as (_ & F1 & R1 & Dl1 & T1 & S1).
    destruct (sendReply_eq w (hf ++ df) sock jid reply)
      as (S2 & _ & F2 & R2 & Dl2 & T2 & N).
    fold df in F1, R1, Dl1, T1, S1.
    rewrite !forwards_app, !replies_app, !sends_app, !downloads_app,
      !transcriptions_app.
    rewrite F, R, S, Dl, F1, R1, Dl1, T1, S1, F2, R2, Dl2, T2, S2.
    cbn [app forwards replies sends downloads transcriptions flat_map].
    rewrite ?app_nil_r. repeat split.
    exists reply. repeat split. intros E. unfold result.
    rewrite (N E). reflexivity.
  - rewrite !forwards_app, !replies_app, !sends_app, !downloads_app,
      !transcriptions_app.
    rewrite F, R, S, Dl.
    cbn [app forwards replies sends downloads transcriptions flat_map].
    rewrite ?app_nil_r. repeat split.
Qed.

End Observed.

(** ** What is forwarded *)

(** C3.  For an event that passes the filters, on the text path with body
    [B] the content forwarded to the orchestrator is [B], preceded by
    ["[group:<jid>] "] when the conversation id ends in ["@g.us"]; on the
    voice path with a non-empty transcript [T] it is the same optional
    group tag, then ["[voice] "], then [T].  So ["hello"] in the group
    ["123@g.us"] is forwarded as ["[group:123@g.us] hello"], and the
    transcript ["order status"] there as
    ["[group:123@g.us] [voice] order status"]. *)
Theorem forwarded_content_is_tagged :
  forall (w : World) (h : Trace) (sock : WASocket)
         (msg : Proto.WebMessageInfo) (jid : string),
    passesFilters msg jid ->
    let d := effects (MessageHandler.processMessage sock msg) w h in
    let tag :=
      if JS.endsWith jid "@g.us" then ("[group:" ++ jid ++ "] ")%string
      else "" in
    (forall B,
       JS.ifTruthy (MessageHandler.textContent msg) = Some B ->
       map content (forwards d) = [(tag ++ B)%string]) /\
    (forall T,
       JS.ifTruthy (MessageHandler.textContent msg) = None ->
       MessageHandler.audioMessageOf msg <> None ->
       transcription w h sock msg = Return (Some T) ->
       T <> "" ->
       map content (forwards d) = [(tag ++ "[voice] " ++ T)%string]) /\
    (jid = "123@g.us" ->
     JS.ifTruthy (MessageHandler.textContent msg) = Some "hello" ->
     map content (forwards d) = ["[group:123@g.us] hello"]) /\
    (jid = "123@g.us" ->
     JS.ifTruthy (MessageHandler.textContent msg) = None ->
     MessageHandler.audioMessageOf msg <> None ->
     transcription w h sock msg = Return (Some "order status") ->
     map content (forwards d) = ["[group:123@g.us] [voice] order status"]).
Proof.
  intros w h sock msg jid passes d tag.
  assert (Text : forall B,
            JS.ifTruthy (MessageHandler.textContent msg) = Some B ->
            map content (forwards d) = [(tag ++ B)%string]).
  { intros B Hb.
    destruct (text_observed w h sock msg jid passes B Hb) as (reply & F & _).
    subst d. rewrite F. reflexivity. }
  assert (Voice : forall T,
            JS.ifTruthy (MessageHandler.textContent msg) = None ->
            MessageHandler.audioMessageOf msg <> None ->
            transcription w h sock msg = Return (Some T) ->
            T <> "" ->
            map content (forwards d) = [(tag ++ "[voice] " ++ T)%string]).
  { intros T Hb Ha Ht Hne.
    destruct (MessageHandler.audioMessageOf msg) as [audio|] eqn:Ea;
      [|contradiction].
    destruct (voice_observed w h sock msg jid passes audio Hb Ea)
      as (_ & _ & V).
    rewrite Ht in V. unfold JS.ifTruthy, JS.truthy in V.
    apply String.eqb_neq in Hne. rewrite Hne in V. cbn [negb] in V.
    destruct V as (reply & F & _). subst d. rewrite F. reflexivity. }
  repeat split; try assumption.
  - intros -> Hb. apply (Text "hello" Hb).
  - intros -> Hb Ha Ht. apply (Voice "order status" Hb Ha Ht). discriminate.
Qed.

Lemma forwarded_content_is_tagged_witness :
  passesFilters (Sample.textIn "123@g.us" "hello") "123@g.us" /\
  map content
    (forwards
       (effects
          (MessageHandler.processMessage 0 (Sample.textIn "123@g.us" "hello"))
          (Sample.friendly "") [])) = ["[group:123@g.us] hello"].
Proof.
  assert (P : passesFilters (Sample.textIn "123@g.us" "hello") "123@g.us")
    by (repeat split; discriminate).
  split; [exact P|].
  apply (forwarded_content_is_tagged (Sample.friendly "") [] 0
           (Sample.textIn "123@g.us" "hello") "123@g.us" P); reflexivity.
Defined.

(** C9.  An event that passes the filters and carries both a non-empty
    text body and an audio payload takes the text path only: the text is
    forwarded, and no media is downloaded and nothing is sent to the
    transcription backend. *)
Theorem text_takes_precedence_over_audio :
  forall (w : World) (h : Trace) (sock : WASocket)
         (msg : Proto.WebMessageInfo) (jid body : string)
         (audio : Proto.AudioMessage),
    passesFilters msg jid ->
    JS.ifTruthy (MessageHandler.textContent msg) = Some body ->
    MessageHandler.audioMessageOf msg = Some audio ->
    let d := effects (MessageHandler.processMessage sock msg) w h in
    let tag :=
      if JS.endsWith jid "@g.us" then ("[group:" ++ jid ++ "] ")%string
      else "" in
    map content (forwards d) = [(tag ++ body)%string] /\
    downloads d = [] /\
    transcriptions d = [].
Proof.
  intros w h sock msg jid body audio passes Hb _ d tag.
  destruct (text_observed w h sock msg jid passes body Hb)
    as (reply & F & _ & _ & Dl & T & _).
  subst d. rewrite F. repeat split; assumption.
Qed.

Lemma text_takes_precedence_over_audio_witness :
  let msg := Sample.captionedVoiceIn "15551234567@s.whatsapp.net" "see attached" in
  let d := effects (MessageHandler.processMessage 0 msg)
             (Sample.friendly "ignored") [] in
  map content (forwards d) = ["see attached"] /\
  downloads d = [] /\ transcriptions d = [].
Proof.
  refine (text_takes_precedence_over_audio (Sample.friendly "ignored") [] 0
            (Sample.captionedVoiceIn "15551234567@s.whatsapp.net" "see attached")
            "15551234567@s.whatsapp.net" "see attached"
            {| Proto.mimetype := Some "audio/ogg; codecs=opus";
               Proto.ptt := Some true |} _ _ _).
  - repeat split; discriminate.
  - reflexivity.
  - reflexivity.
Defined.

(** ** Who the sender is *)

(** The claim C4 as it is stated fails when the participant id of a group
    event is present but empty: the code takes the conversation id, and
    forwards under it. *)
Lemma empty_participant_is_not_the_sender :
  passesFilters (Sample.groupTextIn "123@g.us" "" "hi") "123@g.us" /\
  JS.endsWith "123@g.us" "@g.us" = true /\
  Proto.participant (Proto.key (Sample.groupTextIn "123@g.us" "" "hi"))
    = Some "" /\
  MessageHandler.senderId (Sample.groupTextIn "123@g.us" "" "hi") "123@g.us"
    <> "" /\
  map sender_id
    (forwards
       (effects
          (MessageHandler.processMessage 0
             (Sample.groupTextIn "123@g.us" "" "hi"))
          (Sample.friendly "") []))
    = ["123@g.us"].
Proof.
  split; [repeat split; discriminate|].
  split; [reflexivity|]. split; [reflexivity|].
  split; [discriminate | reflexivity].
Qed.

(** C4, amended.  The resolved sender of an event in a group (conversation
    id ending in ["@g.us"]) is the participant id when that is present and
    not empty, and the conversation id when the participant id is absent
    or empty; in a direct conversation it is the conversation id.  It is
    the [sender_id] of whatever the event makes the bridge forward. *)
Theorem resolved_sender :
  forall (msg : Proto.WebMessageInfo) (jid : string),
    (JS.endsWith jid "@g.us" = true ->
     forall P, Proto.participant (Proto.key msg) = Some P -> P <> "" ->
               MessageHandler.senderId msg jid = P) /\
    (JS.endsWith jid "@g.us" = true ->
     Proto.participant (Proto.key msg) = None \/
     Proto.participant (Proto.key msg) = Some "" ->
     MessageHandler.senderId msg jid = jid) /\
    (JS.endsWith jid "@g.us" = false ->
     MessageHandler.senderId msg jid = jid) /\
    (passesFilters msg jid ->
     forall w h sock p,
       In p (forwards (effects (MessageHandler.processMessage sock msg) w h)) ->
       sender_id p = MessageHandler.senderId msg jid).
Proof.
  intros msg jid. unfold MessageHandler.senderId, MessageHandler.isGroup.
  repeat split.
  - intros -> P -> Hne. cbn. apply String.eqb_neq in Hne. now rewrite Hne.
  - intros -> [-> | ->]; reflexivity.
  - intros ->. reflexivity.
  - intros passes w h sock p Hin.
    fold (MessageHandler.isGroup jid). fold (MessageHandler.senderId msg jid).
    destruct (JS.ifTruthy (MessageHandler.textContent msg)) as [body|] eqn:Hb.
    + destruct (text_observed w h sock msg jid passes body Hb)
        as (reply & F & _).
      rewrite F in Hin. destruct Hin as [<-|[]]. reflexivity.
    + destruct (MessageHandler.audioMessageOf msg) as [audio|] eqn:Ha.
      * destruct (voice_observed w h sock msg jid passes audio Hb Ha)
          as (_ & _ & V).
        destruct (transcription w h sock msg) as [tr|e]; [|contradiction].
        destruct (JS.ifTruthy tr) as [T|].
        -- destruct V as (reply & F & _). rewrite F in Hin.
           destruct Hin as [<-|[]]. reflexivity.
        -- destruct V as (F & _). rewrite F in Hin. contradiction.
      * unfold effects in Hin.
        rewrite (processMessage_unsupported w h sock msg jid passes Hb Ha) in Hin.
        contradiction.
Qed.

Lemma resolved_sender_witness :
  let msg := Sample.groupTextIn "123@g.us" "alice@s.whatsapp.net" "hi" in
  MessageHandler.senderId msg "123@g.us" = "alice@s.whatsapp.net" /\
  MessageHandler.senderId (Sample.textIn "123@g.us" "hi") "123@g.us"
    = "123@g.us" /\
  MessageHandler.senderId (Sample.textIn "bob@s.whatsapp.net" "hi")
    "bob@s.whatsapp.net" = "bob@s.whatsapp.net".
Proof.
  cbv zeta. split; [|split].
  - apply (proj1 (resolved_sender
                    (Sample.groupTextIn "123@g.us" "alice@s.whatsapp.net" "hi")
                    "123@g.us"));
      [reflexivity | reflexivity | discriminate].
  - apply (proj1 (proj2 (resolved_sender (Sample.textIn "123@g.us" "hi")
                           "123@g.us")));
      [reflexivity | left; reflexivity].
  - apply (proj1 (proj2 (proj2 (resolved_sender
                                  (Sample.textIn "bob@s.whatsapp.net" "hi")
                                  "bob@s.whatsapp.net"))));
      reflexivity.
Defined.

(** ** Redirects *)

Lemma followed_success st loc :
  (200 <= st < 300)%Z -> followed st loc = None.
Proof.
  intros [_ H]. unfold followed.
  destruct (Z.leb_spec 300 st); [lia | reflexivity].
Qed.

(** An answer that is not a redirect ends the exchange. *)
Lemma exchange_final {B D} limit (ask : nat -> Request B -> Wire D) req
    st loc d :
  ask 0%nat req = WireResponse st loc d -> followed st loc = None ->
  exchange limit ask req = HttpResponse st d.
Proof.
  intros Ha Hf. unfold exchange.
  destruct limit as [|n]; cbn [follow]; rewrite Ha; [reflexivity|].
  now rewrite Hf.
Qed.

Lemma exchange_failure {B D} limit (ask : nat -> Request B -> Wire D) req m :
  ask 0%nat req = WireFailure m ->
  exchange limit ask req = HttpNetworkFailure m.
Proof.
  intros Ha. unfold exchange.
  destruct limit as [|n]; cbn [follow]; now rewrite Ha.
Qed.

Lemma exchange_timeout {B D} limit (ask : nat -> Request B -> Wire D) req :
  ask 0%nat req = WireTimeout -> exchange limit ask req = HttpTimeout.
Proof.
  intros Ha. unfold exchange.
  destruct limit as [|n]; cbn [follow]; now rewrite Ha.
Qed.

(** A redirect is followed when redirects are allowed; with
    [maxRedirects] at 0 it is the answer. *)
Lemma exchange_redirect {B D} limit (ask : nat -> Request B -> Wire D) req
    st loc d url :
  ask 0%nat req = WireResponse st loc d -> followed st loc = Some url ->
  exchange (S limit) ask req = follow limit ask 1 (nextRequest st req url) /\
  exchange 0 ask req = HttpResponse st d.
Proof.
  intros Ha Hf. unfold exchange. cbn [follow]. rewrite Ha, Hf.
  split; reflexivity.
Qed.

(** An answer on the wire that is an error makes the exchange end with an
    error. *)
Lemma exchange_error {B D} limit (ask : nat -> Request B -> Wire D) req :
  wireError (ask 0%nat req) -> httpError (exchange limit ask req).
Proof.
  intros He. destruct (ask 0%nat req) as [st loc d|m|] eqn:Ha.
  - destruct He as [Hf Hst].
    rewrite (exchange_final limit ask req st loc d Ha Hf). exact Hst.
  - now rewrite (exchange_failure limit ask req m Ha).
  - now rewrite (exchange_timeout limit ask req Ha).
Qed.

(** However the exchange goes, it ends in one of the three ways, and a
    status it ends with was the status of an answer that was not
    followed. *)
Lemma follow_status {B D} fuel (ask : nat -> Request B -> Wire D) :
  forall hop req st d,
    follow fuel ask hop req = HttpResponse st d ->
    exists hop' req' loc,
      ask hop' req' = WireResponse st loc d /\ followed st loc = None.
Proof.
  induction fuel as [|fuel IH]; intros hop req st d; cbn [follow];
    destruct (ask hop req) as [st' loc' d'|m|] eqn:Ha; try discriminate;
    destruct (followed st' loc') as [url|] eqn:Hf; try discriminate.
  - intros [= <- <-]. eauto.
  - apply IH.
  - intros [= <- <-]. eauto.
Qed.

(** ** Transcription *)

(** C5, amended.  [handleAudioMessage] returns [null] when the download
    is empty or fails (and then makes no request to the transcription
    backend), when the call of [axios.post] ends with an error (a status
    outside 2xx, a network failure, a timeout, too many redirects), and
    when the [text] of the response it ends with is missing or is empty
    once trimmed; otherwise it returns the trimmed text.  An answer of
    the configured endpoint that is not a redirect is what the call ends
    with: a status outside 2xx gives [null].  A 3xx answer with a
    [Location] is followed when redirects are allowed, and the call then
    ends as the requests that follow end.  In [processMessage], a [null]
    transcription forwards nothing, and a download of zero bytes leads
    to no request to the transcription backend and none to the
    orchestrator. *)
Theorem transcription_returns_text_or_null :
  forall (w : World) (h : Trace) (sock : WASocket)
         (msg : Proto.WebMessageInfo),
    let r := result (AudioHandler.handleAudioMessage sock msg) w h in
    let d := effects (AudioHandler.handleAudioMessage sock msg) w h in
    (noAudio (downloadAnswer w h msg) ->
     r = Return None /\ transcriptions d = []) /\
    (forall b,
       downloadAnswer w h msg = Return (Some b) -> b <> [] ->
       (httpError (gatewayAnswer w h msg b) -> r = Return None) /\
       (wireError (gatewayReply w h msg b) -> r = Return None) /\
       (forall st loc body url n,
          gatewayReply w h msg b = WireResponse st loc body ->
          followed st loc = Some url -> maxRedirects w = S n ->
          gatewayAnswer w h msg b =
            follow n (voiceGateway w (whenTranscribing h msg b)) 1
              (nextRequest st (transcribeRequest w b) url)) /\
       (forall st body,
          gatewayAnswer w h msg b = HttpResponse st body \/
          (exists loc, gatewayReply w h msg b = WireResponse st loc body) ->
          (200 <= st < 300)%Z ->
          (body = None -> r = Return None) /\
          (forall response,
             body = Some response -> transcript response = None ->
             r = Return None) /\
          (forall response s,
             body = Some response -> transcript response = Some s ->
             JS.trim s = "" -> r = Return None) /\
          (forall response s,
             body = Some response -> transcript response = Some s ->
             JS.trim s <> "" -> r = Return (Some (JS.trim s))))) /\
    (forall jid,
       passesFilters msg jid ->
       JS.ifTruthy (MessageHandler.textContent msg) = None ->
       MessageHandler.audioMessageOf msg <> None ->
       let dp := effects (MessageHandler.processMessage sock msg) w h in
       (transcription w h sock msg = Return None ->
        forwards dp = [] /\ sends dp = [] /\
        result (MessageHandler.processMessage sock msg) w h = Return tt) /\
       (downloadAnswer w (beforeTranscription h) msg = Return (Some []) ->
        transcriptions dp = [] /\ forwards dp = [])).
Proof.
  intros w h sock msg r d.
  destruct (handleAudioMessage_cases w h sock msg) as (Hr & Ht & _).
  fold r in Hr. fold d in Ht.
  split; [|split].
  - intros Hno. rewrite Hr, Ht.
    destruct (downloadAnswer w h msg) as [[[|x b]|]|e]; cbn in Hno;
      try discriminate; split; reflexivity.
  - intros b Hd Hb. rewrite Hd in Hr.
    destruct b as [|x b]; [contradiction|].
    assert (Herr : httpError (gatewayAnswer w h msg (x :: b)) ->
                   r = Return None).
    { intros He. rewrite Hr.
      destruct (gatewayAnswer w h msg (x :: b)) as [st body|m|];
        try reflexivity.
      unfold httpError in He. unfold axiosResult.
      destruct (Z.leb_spec 200 st); destruct (Z.ltb_spec st 300);
        try reflexivity; lia. }
    split; [exact Herr|]. split; [|split].
    + intros He. apply Herr. now apply exchange_error.
    + intros st loc body url n Hw Hf Hmax. unfold gatewayAnswer.
      rewrite Hmax. exact (proj1 (exchange_redirect n _ _ st loc body url Hw Hf)).
    + intros st body Hg' [H1 H2].
      assert (Hg : gatewayAnswer w h msg (x :: b) = HttpResponse st body).
      { destruct Hg' as [Hg|[loc Hw]]; [exact Hg|].
        apply (exchange_final _ _ _ st loc body Hw).
        now apply followed_success. }
      rewrite Hg in Hr. unfold axiosResult in Hr.
      apply Z.leb_le in H1. apply Z.ltb_lt in H2. rewrite H1, H2 in Hr.
      cbn in Hr. rewrite Hr. repeat split.
      * intros ->. reflexivity.
      * intros response -> Hn. cbn. now rewrite Hn.
      * intros response s -> Hs Hz. cbn. rewrite Hs.
        unfold JS.ifTruthy, JS.truthy. now rewrite Hz.
      * intros response s -> Hs Hz. cbn. rewrite Hs.
        unfold JS.ifTruthy, JS.truthy.
        apply String.eqb_neq in Hz. now rewrite Hz.
  - intros jid passes Hb Ha dp.
    destruct (MessageHandler.audioMessageOf msg) as [audio|] eqn:Ea;
      [|contradiction].
    destruct (voice_observed w h sock msg jid passes audio Hb Ea)
      as (_ & Tr & V).
    fold dp in Tr, V.
    split.
    + intros Hnull. rewrite Hnull in V. cbn in V.
      destruct V as (F & _ & S & R). repeat split; assumption.
    + intros Hz.
      destruct (handleAudioMessage_cases w (beforeTranscription h) sock msg)
        as (Hr' & Ht' & _).
      fold (transcription w h sock msg) in Hr'.
      rewrite Hz in Hr', Ht'. rewrite Hr' in V. cbn in V.
      destruct V as (F & _). rewrite Tr, Ht'. split; [reflexivity|exact F].
Qed.

Lemma transcription_returns_text_or_null_witness :
  let msg := Sample.voiceIn "123@g.us" in
  (result (AudioHandler.handleAudioMessage 0 msg) Sample.hostile [] = Return None /\
   transcriptions (effects (AudioHandler.handleAudioMessage 0 msg) Sample.hostile [])
     = []) /\
  result (AudioHandler.handleAudioMessage 0 msg)
    (Sample.friendly (String "009" " order status  ")) []
    = Return (Some "order status").
Proof.
  cbv zeta. split.
  - apply (proj1 (transcription_returns_text_or_null Sample.hostile [] 0
                    (Sample.voiceIn "123@g.us"))).
    reflexivity.
  - refine (proj2 (proj2 (proj2 (proj2 (proj2 (proj2
      (proj1 (proj2 (transcription_returns_text_or_null
                       (Sample.friendly (String "009" " order status  ")) [] 0
                       (Sample.voiceIn "123@g.us")))
         [x4f; x67; x67; x53] eq_refl _)))
      200%Z (Some {| transcript := Some (String "009" " order status  ") |})
      (or_intror (ex_intro _ None eq_refl)) _)))
      {| transcript := Some (String "009" " order status  ") |}
      (String "009" " order status  ") eq_refl eq_refl _).
    + discriminate.
    + lia.
    + discriminate.
Defined.

(** ** Forwarding and replying *)

Lemma processMessage_quiet w h sock msg :
  Forall (eq None)
    (replies (effects (MessageHandler.processMessage sock msg) w h)) ->
  sends (effects (MessageHandler.processMessage sock msg) w h) = [] /\
  result (MessageHandler.processMessage sock msg) w h = Return tt.
Proof.
  intros Hq.
  destruct (dropped_or_passes msg) as [Hd | [jid passes]].
  - destruct (processMessage_of_dropped w sock msg h Hd) as [R X].
    apply only_logs in X. split; [apply X | exact R].
  - destruct (JS.ifTruthy (MessageHandler.textContent msg)) as [body|] eqn:Hb.
    + destruct (text_observed w h sock msg jid passes body Hb)
        as (reply & _ & R & S & _ & _ & N).
      rewrite R in Hq. inversion Hq as [|? ? E _]; subst.
      rewrite S. split; [reflexivity | apply N; reflexivity].
    + destruct (MessageHandler.audioMessageOf msg) as [audio|] eqn:Ha.
      * destruct (voice_observed w h sock msg jid passes audio Hb Ha)
          as (_ & _ & V).
        destruct (transcription w h sock msg) as [tr|e]; [|contradiction].
        destruct (JS.ifTruthy tr) as [T|].
        -- destruct V as (reply & _ & R & S & N).
           rewrite R in Hq. inversion Hq as [|? ? E _]; subst.
           rewrite S. split; [reflexivity | apply N; reflexivity].
        -- destruct V as (_ & _ & S & R). split; assumption.
      * unfold effects, result.
        rewrite (processMessage_unsupported w h sock msg jid passes Hb Ha).
        split; reflexivity.
Qed.

(** C6, amended.  [forwardToOpenClaw] makes exactly one call of
    [axios.post], whose body is [{channel: "whatsapp", sender_id,
    content}]; when the call ends with a 2xx answer it returns the body
    of that answer, and when the call ends with an error (a status
    outside 2xx, a network failure, a timeout, too many redirects) it
    returns [null], without a second call and without throwing.  An
    answer of the configured endpoint that is not a redirect is what the
    call ends with: 2xx gives its body, any other status gives [null].
    A 3xx answer with a [Location] is followed when redirects are
    allowed, and the call then ends as the requests that follow end.
    When every forward of an event returned [null], [processMessage]
    sends nothing and returns normally, so that nothing reaches the
    failure boundary of the batch loop. *)
Theorem forward_builds_payload_and_contains_failure :
  forall (w : World) (h : Trace) (senderId content : string),
    let r := result (Bridge.forwardToOpenClaw senderId content) w h in
    let d := effects (Bridge.forwardToOpenClaw senderId content) w h in
    let answer := forwardAnswer w h senderId content in
    external d =
      [EPostJson (forwardUrl w)
         {| channel := "whatsapp"; sender_id := senderId; content := content |}
         forwardConfig answer] /\
    (forall st body,
       answer = HttpResponse st body -> (200 <= st < 300)%Z ->
       r = Return body) /\
    (httpError answer -> r = Return None) /\
    (forall st loc body,
       forwardReply w h senderId content = WireResponse st loc body ->
       (200 <= st < 300)%Z -> r = Return body) /\
    (wireError (forwardReply w h senderId content) -> r = Return None) /\
    (forall st loc body url n,
       forwardReply w h senderId content = WireResponse st loc body ->
       followed st loc = Some url -> maxRedirects w = S n ->
       answer =
         follow n (orchestrator w (whenForwarding h)) 1
           (nextRequest st (forwardRequest w senderId content) url)) /\
    (forall sock msg h',
       Forall (eq None)
         (replies (effects (MessageHandler.processMessage sock msg) w h')) ->
       sends (effects (MessageHandler.processMessage sock msg) w h') = [] /\
       result (MessageHandler.processMessage sock msg) w h' = Return tt /\
       MessageHandler.processGuarded sock msg w h' =
         (Return tt, effects (MessageHandler.processMessage sock msg) w h')).
Proof.
  intros w h senderId content r d answer.
  destruct (forward_observed w h senderId content) as (X & _).
  assert (Hr : r = Return (replyOf answer)).
  { subst r answer. unfold result. now rewrite forwardToOpenClaw_eq. }
  split; [exact X|]. split; [|split; [|split; [|split; [|split]]]].
  - intros st body Ha Hst. rewrite Hr, Ha. now rewrite replyOf_success.
  - intros He. rewrite Hr. now rewrite replyOf_error.
  - intros st loc body Hw Hst. rewrite Hr. subst answer.
    unfold forwardAnswer.
    rewrite (exchange_final _ _ _ st loc body Hw (followed_success st loc Hst)).
    now rewrite replyOf_success.
  - intros He. rewrite Hr. rewrite replyOf_error; [reflexivity|].
    subst answer. now apply exchange_error.
  - intros st loc body url n Hw Hf Hmax. subst answer.
    unfold forwardAnswer. rewrite Hmax.
    exact (proj1 (exchange_redirect n _ _ st loc body url Hw Hf)).
  - intros sock msg h' Hq.
    destruct (processMessage_quiet w h' sock msg Hq) as [S R].
    repeat split; try assumption.
    rewrite processGuarded_eq, R. cbn. now rewrite app_nil_r.
Qed.

Lemma forward_builds_payload_and_contains_failure_witness :
  result (Bridge.forwardToOpenClaw "bob@s.whatsapp.net" "hi") Sample.hostile []
    = Return None /\
  sends (effects (MessageHandler.processMessage 0
                    (Sample.textIn "bob@s.whatsapp.net" "hi"))
           Sample.hostile []) = [] /\
  result (MessageHandler.processMessage 0
            (Sample.textIn "bob@s.whatsapp.net" "hi")) Sample.hostile []
    = Return tt.
Proof.
  pose proof (forward_builds_payload_and_contains_failure
                Sample.hostile [] "bob@s.whatsapp.net" "hi") as H.
  cbv zeta in H. destruct H as (_ & _ & _ & _ & Herr & _ & Hquiet).
  split.
  - apply Herr. split; [reflexivity | right; lia].
  - destruct (Hquiet 0 (Sample.textIn "bob@s.whatsapp.net" "hi") [])
      as (S & R & _).
    + repeat constructor.
    + split; assumption.
Defined.

(** The claim C6 as it is stated fails when the status outside 2xx is
    that of a redirect: the orchestrator answers 302 with a [Location],
    the call goes on to the new address, and the reply found there is
    returned and sent. *)
Lemma redirected_forward_is_answered :
  let w := Sample.moved 302 in
  let msg := Sample.textIn "bob@s.whatsapp.net" "hi" in
  forwardReply w [] "bob@s.whatsapp.net" "hi" =
    WireResponse 302 (Some "http://openclaw-2:8000/api/v1/message") None /\
  result (Bridge.forwardToOpenClaw "bob@s.whatsapp.net" "hi") w [] =
    Return (Some (Sample.answerText "moved here")) /\
  sends (effects (MessageHandler.processMessage 0 msg) w []) =
    [(0%nat, "bob@s.whatsapp.net", "moved here")].
Proof.
  cbv zeta. split; [reflexivity|]. split; [reflexivity|].
  vm_compute. reflexivity.
Qed.

(** The claim C5 as it is stated fails in the same way: the
    transcription backend answers 307 with a [Location], the form is
    posted again to the new address, and the transcript found there is
    returned. *)
Lemma redirected_transcription_is_returned :
  let w := Sample.moved 307 in
  let msg := Sample.voiceIn "bob@s.whatsapp.net" in
  downloadAnswer w [] msg = Return (Some [x01]) /\
  gatewayReply w [] msg [x01] =
    WireResponse 307 (Some "http://voice-gateway-2:8001/api/transcribe")
      None /\
  result (AudioHandler.handleAudioMessage 0 msg) w [] =
    Return (Some "order status").
Proof.
  cbv zeta. split; [reflexivity|]. split; [reflexivity|].
  vm_compute. reflexivity.
Qed.

(** What a redirect does to the request: after 302 the form is not posted
    again (the new address gets a GET without a body, and here refuses
    it), and redirects without end make the call fail. *)
Example redirects_on_samples :
  nextRequest 302 (transcribeRequest (Sample.moved 302) [x01]) "u" =
    {| method := GET; target := "u"; sent := None |} /\
  nextRequest 307 (transcribeRequest (Sample.moved 307) [x01]) "u" =
    {| method := POST; target := "u";
       sent := Some (transcribeForm [x01]) |} /\
  gatewayAnswer (Sample.moved 302) []
    (Sample.voiceIn "bob@s.whatsapp.net") [x01] = HttpResponse 405 None /\
  result (AudioHandler.handleAudioMessage 0
            (Sample.voiceIn "bob@s.whatsapp.net")) (Sample.moved 302) []
    = Return None /\
  forwardAnswer Sample.looping [] "bob@s.whatsapp.net" "hi" =
    HttpNetworkFailure "Maximum number of redirects exceeded" /\
  result (Bridge.forwardToOpenClaw "bob@s.whatsapp.net" "hi")
    Sample.looping [] = Return None.
Proof. vm_compute. repeat split. Qed.

(** C10.  For an event that passes the filters, a reply is sent exactly
    when the orchestrator reply is there and its [text] is a non-empty
    string; then exactly one send is made, and it goes to the conversation
    id of the event (for a group event the group, not the participant).
    At most one forward is made for an event, hence at most one send. *)
Theorem reply_sent_iff_text :
  forall (w : World) (h : Trace) (sock : WASocket)
         (msg : Proto.WebMessageInfo) (jid : string),
    passesFilters msg jid ->
    let d := effects (MessageHandler.processMessage sock msg) w h in
    (length (replies d) <= 1)%nat /\
    (sends d <> [] <->
     exists r txt,
       In (Some r) (replies d) /\ text r = Some txt /\ txt <> "") /\
    (forall r txt,
       In (Some r) (replies d) -> text r = Some txt -> txt <> "" ->
       sends d = [(sock, jid, txt)]) /\
    (forall s, In s (sends d) -> fst s = (sock, jid)).
Proof.
  intros w h sock msg jid passes d.
  assert (H : (replies d = [] /\ sends d = []) \/
              exists reply, replies d = [reply] /\ sends d = sendFor sock jid reply).
  { destruct (JS.ifTruthy (MessageHandler.textContent msg)) as [body|] eqn:Hb.
    - destruct (text_observed w h sock msg jid passes body Hb)
        as (reply & _ & R & S & _).
      right. exists reply. split; assumption.
    - destruct (MessageHandler.audioMessageOf msg) as [audio|] eqn:Ha.
      + destruct (voice_observed w h sock msg jid passes audio Hb Ha)
          as (_ & _ & V).
        destruct (transcription w h sock msg) as [tr|e]; [|contradiction].
        destruct (JS.ifTruthy tr) as [T|].
        * destruct V as (reply & _ & R & S & _).
          right. exists reply. split; assumption.
        * destruct V as (_ & R & S & _). left. split; assumption.
      + left. subst d. unfold effects.
        rewrite (processMessage_unsupported w h sock msg jid passes Hb Ha).
        split; reflexivity. }
  destruct H as [[R S] | (reply & R & S)]; rewrite R, S.
  - cbn. repeat split; try lia; try contradiction.
    intros (r & txt & [] & _).
  - assert (Hs : forall r txt,
              reply = Some r -> text r = Some txt -> txt <> "" ->
              sendFor sock jid reply = [(sock, jid, txt)]).
    { intros r txt -> Ht Hne. cbn. rewrite Ht.
      apply String.eqb_neq in Hne. now rewrite Hne. }
    cbn [length In]. split; [lia|]. split; [|split].
    + split.
      * intros Hne. destruct reply as [r|]; [|now contradiction Hne].
        cbn in Hne. destruct (text r) as [txt|] eqn:Ht;
          [|now contradiction Hne].
        destruct (String.eqb_spec txt "") as [->|Hx];
          [now contradiction Hne|].
        exists r, txt. repeat split; auto.
      * intros (r & txt & [E|[]] & Ht & Hne).
        rewrite (Hs r txt E Ht Hne). discriminate.
    + intros r txt [E|[]] Ht Hne. exact (Hs r txt E Ht Hne).
    + intros s Hin. destruct reply as [r|]; [|contradiction].
      cbn in Hin. destruct (text r) as [txt|]; [|contradiction].
      destruct (String.eqb txt ""); [contradiction|].
      destruct Hin as [<-|[]]. reflexivity.
Qed.

Lemma reply_sent_iff_text_witness :
  let msg := Sample.groupTextIn "123@g.us" "alice@s.whatsapp.net" "hi" in
  passesFilters msg "123@g.us" /\
  sends (effects (MessageHandler.processMessage 0 msg) (Sample.friendly "") [])
    = [(0, "123@g.us", "echo: [group:123@g.us] hi")].
Proof.
  cbv zeta.
  assert (P : passesFilters
                (Sample.groupTextIn "123@g.us" "alice@s.whatsapp.net" "hi")
                "123@g.us") by (repeat split; discriminate).
  split; [exact P|].
  apply (proj1 (proj2 (proj2
           (reply_sent_iff_text (Sample.friendly "") [] 0
              (Sample.groupTextIn "123@g.us" "alice@s.whatsapp.net" "hi")
              "123@g.us" P)))
           (Sample.answerText "echo: [group:123@g.us] hi")).
  - left. reflexivity.
  - reflexivity.
  - discriminate.
Defined.

(** ** The connection lifecycle *)

Section LifecycleFacts.

Import Whatsapp.

Variable loggedOut : Z.

Lemma consistent_initial : consistent initial.
Proof. reflexivity. Qed.

Lemma consistent_logLine lv s st : consistent st -> consistent (logLine lv s st).
Proof. exact (fun H => H). Qed.

Lemma consistent_setTimeout cb ms st :
  consistent st -> consistent (setTimeout cb ms st).
Proof. exact (fun H => H). Qed.

Lemma consistent_connect ok st :
  consistent st -> consistent (snd (connectWhatsApp ok st)).
Proof.
  intros H. unfold connectWhatsApp. destruct ok; cbn; [discriminate|exact H].
Qed.

Lemma consistent_update sock update st :
  consistent st -> consistent (onConnectionUpdate loggedOut sock update st).
Proof.
  intros H. unfold onConnectionUpdate.
  destruct (isOpen (connection update)); [cbn; discriminate|].
  destruct (isClose (connection update)).
  - destruct (shouldReconnect loggedOut update);
      [|reflexivity].
    apply consistent_setTimeout, consistent_logLine, consistent_logLine.
    destruct (JS.truthy (qr update)); [apply consistent_logLine|]; exact H.
  - destruct (JS.truthy (qr update)); [apply consistent_logLine|]; exact H.
Qed.

Lemma consistent_step ev st :
  consistent st -> consistent (step loggedOut ev st).
Proof.
  intros H. destruct ev as [dirExists ok|sock update|ok|]; cbn [step].
  - unfold initWhatsApp. apply consistent_connect.
    destruct (negb dirExists); [apply consistent_logLine|]; exact H.
  - destruct (sock <? sockets st)%nat; [apply consistent_update|]; exact H.
  - unfold fireTimer. destruct (timers st) as [|tm rest]; [exact H|].
    destruct tm as [[] ms]. unfold runCallback. cbn [callback].
    match goal with
    | |- context [connectWhatsApp ok ?s] =>
        pose proof (consistent_connect ok s H) as C;
        destruct (connectWhatsApp ok s) as [[v|e] st']
    end; [exact C | apply consistent_logLine; exact C].
  - exact H.
Qed.

Lemma consistent_run events :
  forall st, consistent st -> consistent (run loggedOut events st).
Proof.
  induction events as [|ev rest IH]; intros st H; [exact H|].
  cbn [run]. apply IH, consistent_step, H.
Qed.


Lemma sockets_update sock update st :
  sockets (onConnectionUpdate loggedOut sock update st) = sockets st.
Proof.
  unfold onConnectionUpdate.
  destruct (isOpen (connection update)), (isClose (connection update)),
    (shouldReconnect loggedOut update), (JS.truthy (qr update)); reflexivity.
Qed.

Lemma lastWrite_update sock update st :
  lastWrite (onConnectionUpdate loggedOut sock update st) <> NeverSet \/
  lastWrite (onConnectionUpdate loggedOut sock update st) = lastWrite st.
Proof.
  unfold onConnectionUpdate.
  destruct (isOpen (connection update)), (isClose (connection update)),
    (shouldReconnect loggedOut update), (JS.truthy (qr update)); cbn;
    auto; left; discriminate.
Qed.

Lemma grounded_connect ok st :
  grounded st -> grounded (snd (connectWhatsApp ok st)).
Proof.
  unfold grounded, connectWhatsApp. intros H.
  destruct ok; cbn; [split; discriminate | exact H].
Qed.

Lemma grounded_step ev st : grounded st -> grounded (step loggedOut ev st).
Proof.
  intros H. destruct ev as [dirExists ok|sock update|ok|]; cbn [step].
  - unfold initWhatsApp. apply grounded_connect.
    destruct (negb dirExists); exact H.
  - destruct (Nat.ltb_spec sock (sockets st)) as [Hlt|_]; [|exact H].
    unfold grounded in *. rewrite sockets_update.
    destruct (lastWrite_update sock update st) as [N|E].
    + split; [contradiction | lia].
    + rewrite E. exact H.
  - unfold fireTimer. destruct (timers st) as [|tm rest]; [exact H|].
    destruct tm as [[] ms]. unfold runCallback. cbn [callback].
    match goal with
    | |- context [connectWhatsApp ok ?s] =>
        pose proof (grounded_connect ok s H) as C;
        destruct (connectWhatsApp ok s) as [[v|e] st']
    end; exact C.
  - exact H.
Qed.

Lemma grounded_run events :
  forall st, grounded st -> grounded (run loggedOut events st).
Proof.
  induction events as [|ev rest IH]; intros st H; [exact H|].
  cbn [run]. apply IH, grounded_step, H.
Qed.

Lemma logout_step ev st :
  lastWrite (step loggedOut ev st) = ByLogout ->
  lastWrite st = ByLogout \/ isLogout loggedOut ev.
Proof.
  destruct ev as [dirExists ok|sock update|ok|]; cbn [step isLogout].
  - unfold initWhatsApp, connectWhatsApp.
    destruct ok, (negb dirExists); cbn; auto; discriminate.
  - destruct (sock <? sockets st)%nat; [|auto].
    unfold onConnectionUpdate, shouldReconnect.
    destruct (connection update) as [[]|]; cbn [isOpen isClose].
    + destruct (statusCodeOf update) as [c|].
      * destruct (Z.eqb_spec c loggedOut) as [->|Hne]; [auto|].
        destruct (JS.truthy (qr update)); cbn; auto.
      * destruct (JS.truthy (qr update)); cbn; auto.
    + cbn. discriminate.
    + destruct (JS.truthy (qr update)); cbn; auto.
    + destruct (JS.truthy (qr update)); cbn; auto.
  - unfold fireTimer. destruct (timers st) as [|tm rest]; [auto|].
    destruct tm as [[] ms]. unfold runCallback, connectWhatsApp.
    destruct ok; cbn; auto; discriminate.
  - auto.
Qed.

Lemma logout_run events :
  forall st,
    lastWrite (run loggedOut events st) = ByLogout ->
    lastWrite st = ByLogout \/ Exists (isLogout loggedOut) events.
Proof.
  induction events as [|ev rest IH]; intros st H; [auto|].
  cbn [run] in H. destruct (IH _ H) as [L|E].
  - destruct (logout_step ev st L) as [L'|E']; auto.
  - auto.
Qed.

End LifecycleFacts.

(** C1.  On a [connection.update] event that reports a close: when the
    status code of the close is not the logged-out code (also when there
    is no status code), the handler schedules exactly one timer, with a
    delay of 3000 ms, whose callback calls [connectWhatsApp] once, and it
    does not assign the variable [socket]; when the status code is the
    logged-out code, the handler sets [socket] to [null] and schedules
    nothing.  The handler itself never calls [connectWhatsApp]. *)
Theorem close_reconnects_once_or_logs_out :
  forall (loggedOut : Z) (sock : WASocket)
         (update : Whatsapp.ConnectionState) (st : Whatsapp.State),
    Whatsapp.connection update = Some Whatsapp.close ->
    let st' := Whatsapp.onConnectionUpdate loggedOut sock update st in
    (Whatsapp.statusCodeOf update <> Some loggedOut ->
     Whatsapp.timers st' =
       Whatsapp.timers st ++
       [{| Whatsapp.callback := Whatsapp.Reconnect; Whatsapp.delay := 3000 |}] /\
     Whatsapp.socket st' = Whatsapp.socket st /\
     Whatsapp.lastWrite st' = Whatsapp.lastWrite st) /\
    (Whatsapp.statusCodeOf update = Some loggedOut ->
     Whatsapp.socket st' = None /\
     Whatsapp.lastWrite st' = Whatsapp.ByLogout /\
     Whatsapp.timers st' = Whatsapp.timers st) /\
    Whatsapp.connectCalls st' = Whatsapp.connectCalls st /\
    (forall ok s,
       Whatsapp.connectCalls (Whatsapp.runCallback Whatsapp.Reconnect ok s)
       = S (Whatsapp.connectCalls s)).
Proof.
  intros loggedOut sock update st Hc st'. subst st'.
  unfold Whatsapp.onConnectionUpdate, Whatsapp.shouldReconnect.
  rewrite Hc. cbn [Whatsapp.isClose Whatsapp.isOpen].
  assert (Last : forall ok s,
            Whatsapp.connectCalls (Whatsapp.runCallback Whatsapp.Reconnect ok s)
            = S (Whatsapp.connectCalls s)).
  { intros ok s. unfold Whatsapp.runCallback, Whatsapp.connectWhatsApp.
    destruct ok; reflexivity. }
  destruct (Whatsapp.statusCodeOf update) as [c|];
    [destruct (Z.eqb_spec c loggedOut) as [->|Hne]|];
    destruct (JS.truthy (Whatsapp.qr update)); cbn;
    (split; [|split; [|split]]);
    try exact Last; try reflexivity;
    try (intros _; repeat split; fail);
    try (intros E; exfalso; congruence).
Qed.

Lemma close_reconnects_once_or_logs_out_witness :
  Whatsapp.connection (Sample.closed 408) = Some Whatsapp.close /\
  Whatsapp.statusCodeOf (Sample.closed 408) <> Some 401%Z /\
  Whatsapp.timers
    (Whatsapp.onConnectionUpdate 401 0 (Sample.closed 408) Sample.connected) =
    [{| Whatsapp.callback := Whatsapp.Reconnect; Whatsapp.delay := 3000 |}] /\
  Whatsapp.socket
    (Whatsapp.onConnectionUpdate 401 0 (Sample.closed 408) Sample.connected) =
    Some 0%nat /\
  Whatsapp.socket
    (Whatsapp.onConnectionUpdate 401 0 (Sample.closed 401) Sample.connected) =
    None.
Proof.
  assert (N : Whatsapp.statusCodeOf (Sample.closed 408) <> Some 401%Z)
    by discriminate.
  split; [reflexivity|]. split; [exact N|].
  pose proof (close_reconnects_once_or_logs_out 401 0 (Sample.closed 408)
                Sample.connected eq_refl) as H.
  pose proof (close_reconnects_once_or_logs_out 401 0 (Sample.closed 401)
                Sample.connected eq_refl) as H'.
  cbv zeta in H, H'.
  destruct H as (H & _). destruct (H N) as (T & S & _).
  destruct H' as (_ & H' & _). destruct (H' eq_refl) as (S' & _).
  split; [exact T|]. split; [exact S | exact S'].
Defined.








(** A life of the module: a first connect, the connection opens, drops
    with a transient code, the timer expires and a second socket is made,
    which is then logged out.  The handle is read in between. *)
Example lifecycle_run :
  let events1 :=
    [Whatsapp.Init false true;
     Whatsapp.ConnectionUpdate 0 Sample.opened;
     Whatsapp.GetSocket;
     Whatsapp.ConnectionUpdate 0 (Sample.closed 408)] in
  let events2 := events1 ++ [Whatsapp.TimerExpires true] in
  let events3 := events2 ++ [Whatsapp.ConnectionUpdate 1 (Sample.closed 401)] in
  fst (Whatsapp.getSocket (Whatsapp.run 401 [] Whatsapp.initial)) = None /\
  fst (Whatsapp.getSocket (Whatsapp.run 401 events1 Whatsapp.initial)) = Some 0%nat /\
  Whatsapp.timers (Whatsapp.run 401 events1 Whatsapp.initial) =
    [{| Whatsapp.callback := Whatsapp.Reconnect; Whatsapp.delay := 3000 |}] /\
  fst (Whatsapp.getSocket (Whatsapp.run 401 events2 Whatsapp.initial)) = Some 1%nat /\
  Whatsapp.connectCalls (Whatsapp.run 401 events2 Whatsapp.initial) = 2%nat /\
  fst (Whatsapp.getSocket (Whatsapp.run 401 events3 Whatsapp.initial)) = None /\
  Whatsapp.timers (Whatsapp.run 401 events3 Whatsapp.initial) = [].
Proof. vm_compute. repeat split. Qed.

(** * Further properties *)

(** ** Trimming *)

Lemma trimStart_first s :
  match firstChar (JS.trimStart s) with
  | Some c => JS.isWhiteSpace c = false
  | None => True
  end.
Proof.
  induction s as [|c r IH]; [exact I|].
  cbn [JS.trimStart]. destruct (JS.isWhiteSpace c) eqn:E; [exact IH|exact E].
Qed.

Lemma trimStart_fixed s :
  match firstChar s with
  | Some c => JS.isWhiteSpace c = false
  | None => True
  end ->
  JS.trimStart s = s.
Proof.
  destruct s as [|c r]; [reflexivity|]. cbn. intros ->. reflexivity.
Qed.

Lemma trimEnd_first s :
  match firstChar s with
  | Some c => JS.isWhiteSpace c = false
  | None => True
  end ->
  firstChar (JS.trimEnd s) = firstChar s.
Proof.
  destruct s as [|c r]; [reflexivity|]. cbn. intros ->. reflexivity.
Qed.

Lemma trimEnd_last s :
  match lastChar (JS.trimEnd s) with
  | Some c => JS.isWhiteSpace c = false
  | None => JS.trimEnd s = ""
  end.
Proof.
  induction s as [|c r IH]; [reflexivity|].
  cbn [JS.trimEnd].
  destruct (JS.isWhiteSpace c) eqn:E; cbn [andb].
  - destruct (String.eqb_spec (JS.trimEnd r) "") as [Z|N]; [reflexivity|].
    cbn [lastChar]. destruct (JS.trimEnd r) as [|c' r'] eqn:R;
      [contradiction|].
    destruct (lastChar (String c' r')); [exact IH|discriminate IH].
  - cbn [lastChar]. destruct (JS.trimEnd r) as [|c' r'] eqn:R; [exact E|].
    destruct (lastChar (String c' r')); [exact IH|discriminate IH].
Qed.

Lemma trimEnd_idempotent s : JS.trimEnd (JS.trimEnd s) = JS.trimEnd s.
Proof.
  induction s as [|c r IH]; [reflexivity|].
  cbn [JS.trimEnd].
  destruct (JS.isWhiteSpace c && String.eqb (JS.trimEnd r) "") eqn:E;
    [reflexivity|].
  cbn [JS.trimEnd]. rewrite IH, E. reflexivity.
Qed.

Lemma trim_idempotent s : JS.trim (JS.trim s) = JS.trim s.
Proof.
  unfold JS.trim.
  rewrite (trimStart_fixed (JS.trimEnd (JS.trimStart s))).
  - apply trimEnd_idempotent.
  - rewrite trimEnd_first by apply trimStart_first. apply trimStart_first.
Qed.

Lemma trim_ends s :
  JS.trim s <> "" ->
  (exists c, firstChar (JS.trim s) = Some c /\ JS.isWhiteSpace c = false) /\
  (exists c, lastChar (JS.trim s) = Some c /\ JS.isWhiteSpace c = false).
Proof.
  intros Hne. split.
  - pose proof (trimStart_first s) as F. unfold JS.trim in *.
    rewrite trimEnd_first by exact F.
    destruct (firstChar (JS.trimStart s)) as [c|] eqn:E; [eauto|].
    destruct (JS.trimStart s); [contradiction Hne; reflexivity|discriminate].
  - pose proof (trimEnd_last (JS.trimStart s)) as L. unfold JS.trim in *.
    destruct (lastChar (JS.trimEnd (JS.trimStart s))) as [c|]; [eauto|].
    contradiction.
Qed.

Lemma ifTruthy_some x s :
  JS.ifTruthy x = Some s -> x = Some s /\ s <> "".
Proof.
  unfold JS.ifTruthy, JS.truthy. destruct x as [t|]; [|discriminate].
  destruct (String.eqb_spec t "") as [->|N]; cbn; [discriminate|].
  intros [= ->]. split; [reflexivity|exact N].
Qed.

(** X1.  [handleAudioMessage] never throws, and a transcript that it
    returns is not empty and is trimmed: trimming it again changes
    nothing, and it neither starts nor ends with white space. *)
Theorem transcript_is_trimmed :
  forall (w : World) (h : Trace) (sock : WASocket)
         (msg : Proto.WebMessageInfo),
    (exists r,
       result (AudioHandler.handleAudioMessage sock msg) w h = Return r) /\
    (forall T,
       result (AudioHandler.handleAudioMessage sock msg) w h
         = Return (Some T) ->
       T <> "" /\
       JS.trim T = T /\
       (exists c, firstChar T = Some c /\ JS.isWhiteSpace c = false) /\
       (exists c, lastChar T = Some c /\ JS.isWhiteSpace c = false)).
Proof.
  intros w h sock msg.
  destruct (handleAudioMessage_cases w h sock msg) as (Hr & _).
  cbv zeta in Hr. rewrite Hr. clear Hr.
  destruct (downloadAnswer w h msg) as [[[|x b]|]|e];
    try (split; [eauto | discriminate]).
  destruct (axiosResult (gatewayAnswer w h msg (x :: b))) as [resp|e];
    [|split; [eauto | discriminate]].
  split; [eauto|]. intros T [= HT].
  apply ifTruthy_some in HT. destruct HT as [HT Hne].
  unfold AudioHandler.trimmedText in HT.
  destruct (data resp) as [r|]; [|discriminate].
  destruct (transcript r) as [s|]; [|discriminate].
  injection HT as <-.
  split; [exact Hne|]. split; [apply trim_idempotent|].
  apply trim_ends, Hne.
Qed.

Lemma transcript_is_trimmed_witness :
  JS.trim "order status" = "order status".
Proof.
  apply (proj2 (transcript_is_trimmed
                  (Sample.friendly (String "009" " order status  ")) [] 0
                  (Sample.voiceIn "123@g.us")) "order status").
  reflexivity.
Defined.

(** ** What the message handler does, entry by entry *)

Lemma logs_wellFormed w sock (d : Trace) :
  external d = [] -> Forall (wellFormed w sock) d.
Proof.
  induction d as [|e d IH]; [constructor|].
  destruct e; cbn; try discriminate.
  intros H. constructor; [exact I | apply IH, H].
Qed.

Lemma append_nonempty (a b : string) : b <> "" -> (a ++ b)%string <> "".
Proof.
  intros Hb. destruct a as [|c a]; [exact Hb | discriminate].
Qed.

Lemma senderId_nonempty msg jid :
  jid <> "" -> MessageHandler.senderId msg jid <> "".
Proof.
  intros Hj. unfold MessageHandler.senderId, JS.orDefault.
  destruct (MessageHandler.isGroup jid); [|exact Hj].
  destruct (Proto.participant (Proto.key msg)) as [p|]; [|exact Hj].
  destruct (String.eqb_spec p ""); assumption.
Qed.

Lemma forward_wellFormed w h sock senderId content :
  senderId <> "" -> content <> "" ->
  Forall (wellFormed w sock)
    (effects (Bridge.forwardToOpenClaw senderId content) w h).
Proof.
  intros Hs Hc. unfold effects. rewrite forwardToOpenClaw_eq. cbn [snd].
  repeat constructor; try assumption.
  destruct (axiosResult _); exact I.
Qed.

Lemma sendReply_shape w h sock jid reply :
  MessageHandler.sendReply sock jid reply w h = (Return tt, []) \/
  exists txt,
    txt <> "" /\
    MessageHandler.sendReply sock jid reply w h =
    (sendMessage w h sock jid txt,
     [ESendMessage sock jid txt (sendMessage w h sock jid txt)]).
Proof.
  unfold MessageHandler.sendReply.
  destruct reply as [r|]; [|now left].
  destruct (JS.ifTruthy (text r)) as [txt|] eqn:E; [|now left].
  apply ifTruthy_some in E. right. exists txt. split; [apply E|reflexivity].
Qed.

Lemma sendReply_wellFormed w h sock jid reply :
  jid <> "" -> jid <> MessageHandler.STATUS_BROADCAST ->
  Forall (wellFormed w sock)
    (effects (MessageHandler.sendReply sock jid reply) w h).
Proof.
  intros H1 H2. unfold effects.
  destruct (sendReply_shape w h sock jid reply) as [-> | (txt & Hne & ->)];
    cbn [snd]; repeat constructor; assumption.
Qed.

Lemma form_wellFormed w s x b answer :
  wellFormed w s
    (EPostForm (transcribeUrl w) (transcribeForm (x :: b)) transcribeConfig
       answer).
Proof.
  cbn. repeat split. exists (x :: b). split; [discriminate|reflexivity].
Qed.

Lemma handleAudioMessage_wellFormed w h sock s msg :
  Forall (wellFormed w s)
    (effects (AudioHandler.handleAudioMessage sock msg) w h).
Proof.
  unfold effects, AudioHandler.handleAudioMessage. run_m.
  destruct (downloadMediaMessage w _ msg) as [[[|x b]|]|e]; cbn.
  - repeat constructor.
  - fold (transcribeUrl w). fold (transcribeForm (x :: b)).
    fold transcribeConfig.
    destruct (exchange _ _ _) as [st data|m|]; cbn [axiosResult].
    + destruct ((200 <=? st) && (st <? 300))%Z; cbn.
      * destruct (JS.ifTruthy (AudioHandler.trimmedText data)); cbn;
          repeat (constructor; try exact I; try apply form_wellFormed).
      * repeat (constructor; try exact I; try apply form_wellFormed).
    + cbn. repeat (constructor; try exact I; try apply form_wellFormed).
    + cbn. repeat (constructor; try exact I; try apply form_wellFormed).
  - repeat constructor.
  - destruct (isAxiosError e); repeat constructor.
Qed.

Lemma processMessage_wellFormed w h sock msg :
  Forall (wellFormed w sock)
    (effects (MessageHandler.processMessage sock msg) w h).
Proof.
  destruct (dropped_or_passes msg) as [Hd | [jid passes]].
  - apply logs_wellFormed, (processMessage_of_dropped w sock msg h Hd).
  - pose proof passes as (_ & Hne & Hsb & _).
    pose proof (senderId_nonempty msg jid Hne) as Hs.
    destruct (JS.ifTruthy (MessageHandler.textContent msg)) as [body|] eqn:Hb.
    + unfold effects.
      rewrite (processMessage_text w h sock msg jid passes body Hb).
      cbn [snd]. apply ifTruthy_some in Hb. destruct Hb as [_ Hbody].
      apply Forall_app. split; [repeat constructor|].
      apply Forall_app. split.
      * apply forward_wellFormed; [exact Hs | apply append_nonempty, Hbody].
      * apply sendReply_wellFormed; assumption.
    + destruct (MessageHandler.audioMessageOf msg) as [audio|] eqn:Ha.
      * unfold effects at 1.
        rewrite (processMessage_voice w h sock msg jid passes audio Hb Ha).
        pose proof (handleAudioMessage_wellFormed w (beforeTranscription h)
                      sock sock msg) as Wa.
        destruct (transcription w h sock msg) as [tr|e]; cbn [snd].
        -- destruct (JS.ifTruthy tr) as [T|] eqn:HT; cbn [snd].
           ++ apply ifTruthy_some in HT. destruct HT as [_ HT].
              apply Forall_app. split.
              { apply Forall_app. split; [repeat constructor | exact Wa]. }
              apply Forall_app. split; [repeat constructor|].
              apply Forall_app. split.
              ** apply forward_wellFormed; [exact Hs|].
                 apply append_nonempty, append_nonempty, HT.
              ** apply sendReply_wellFormed; assumption.
           ++ apply Forall_app. split; [|repeat constructor].
              apply Forall_app. split; [repeat constructor | exact Wa].
        -- apply Forall_app. split; [repeat constructor | exact Wa].
      * unfold effects.
        rewrite (processMessage_unsupported w h sock msg jid passes Hb Ha).
        repeat constructor.
Qed.

Lemma boundaryLog_wellFormed w sock r :
  Forall (wellFormed w sock) (boundaryLog r).
Proof. destruct r; repeat constructor. Qed.

Lemma batch_wellFormed w sock msgs :
  forall h,
    Forall (wellFormed w sock)
      (effects (MessageHandler.forEachMessage sock msgs) w h).
Proof.
  induction msgs as [|m rest IH]; intros h; [constructor|].
  rewrite forEachMessage_cons, effects_processGuarded.
  apply Forall_app. split; [|apply IH].
  apply Forall_app. split;
    [apply processMessage_wellFormed | apply boundaryLog_wellFormed].
Qed.

Lemma upsert_wellFormed w h sock msgs type :
  Forall (wellFormed w sock)
    (effects (MessageHandler.onMessagesUpsert sock msgs type) w h).
Proof.
  unfold effects, MessageHandler.onMessagesUpsert.
  destruct (negb (String.eqb type "notify")); [constructor|].
  apply batch_wellFormed.
Qed.

Lemma in_forwards p (d : Trace) :
  In p (forwards d) -> exists url cfg answer, In (EPostJson url p cfg answer) d.
Proof.
  induction d as [|e d IH]; [contradiction|].
  cbn [forwards flat_map]. intros H. apply in_app_or in H.
  destruct H as [H|H].
  - destruct e; try contradiction. destruct H as [<-|[]].
    do 3 eexists. left. reflexivity.
  - destruct (IH H) as (url & cfg & answer & Hin).
    exists url, cfg, answer. right. exact Hin.
Qed.

Lemma in_sends s (d : Trace) :
  In s (sends d) ->
  exists answer, In (ESendMessage (fst (fst s)) (snd (fst s)) (snd s) answer) d.
Proof.
  induction d as [|e d IH]; [contradiction|].
  cbn [sends flat_map]. intros H. apply in_app_or in H.
  destruct H as [H|H].
  - destruct e; try contradiction. destruct H as [<-|[]].
    eexists. left. reflexivity.
  - destruct (IH H) as (answer & Hin). exists answer. right. exact Hin.
Qed.


(** X3.  Every payload that the handler forwards names the channel
    ["whatsapp"], a sender that is not empty and a content that is not
    empty. *)
Theorem forwarded_payload_is_complete :
  forall (w : World) (h : Trace) (sock : WASocket)
         (msgs : list Proto.WebMessageInfo) (type : string)
         (p : BridgePayload),
    In p (forwards
            (effects (MessageHandler.onMessagesUpsert sock msgs type) w h)) ->
    channel p = "whatsapp" /\ sender_id p <> "" /\ content p <> "".
Proof.
  intros w h sock msgs type p Hin.
  destruct (in_forwards p _ Hin) as (url & cfg & answer & He).
  pose proof (upsert_wellFormed w h sock msgs type) as W.
  rewrite Forall_forall in W. specialize (W _ He). cbn in W. apply W.
Qed.


Lemma forwarded_payload_is_complete_witness :
  In (forwardPayload "bob@s.whatsapp.net" "hi")
     (forwards
        (effects
           (MessageHandler.onMessagesUpsert 0
              [Sample.textIn "bob@s.whatsapp.net" "hi"] "notify")
           Sample.hostile [])) /\
  channel (forwardPayload "bob@s.whatsapp.net" "hi") = "whatsapp" /\
  sender_id (forwardPayload "bob@s.whatsapp.net" "hi") <> "" /\
  content (forwardPayload "bob@s.whatsapp.net" "hi") <> "".
Proof.
  assert (H : In (forwardPayload "bob@s.whatsapp.net" "hi")
                 (forwards
                    (effects
                       (MessageHandler.onMessagesUpsert 0
                          [Sample.textIn "bob@s.whatsapp.net" "hi"] "notify")
                       Sample.hostile []))).
  { left. reflexivity. }
  split; [exact H|].
  exact (forwarded_payload_is_complete Sample.hostile [] 0
           [Sample.textIn "bob@s.whatsapp.net" "hi"] "notify" _ H).
Defined.

(** ** Where sends go, and how many calls a batch makes *)

Lemma sendFor_in sock jid reply s :
  In s (sendFor sock jid reply) -> fst s = (sock, jid).
Proof.
  unfold sendFor. destruct reply as [r|]; [|contradiction].
  destruct (text r) as [txt|]; [|contradiction].
  destruct (String.eqb txt ""); [contradiction|].
  intros [<-|[]]. reflexivity.
Qed.

Lemma sendFor_length sock jid reply :
  (length (sendFor sock jid reply) <= 1)%nat.
Proof.
  unfold sendFor. destruct reply as [r|]; [|cbn; lia].
  destruct (text r) as [txt|]; [|cbn; lia].
  destruct (String.eqb txt ""); cbn; lia.
Qed.

(** What one event makes the handler do, in numbers, and whom a send is
    for. *)
Lemma processMessage_measured w h sock msg :
  let d := effects (MessageHandler.processMessage sock msg) w h in
  (length (forwards d) <= 1)%nat /\
  (length (sends d) <= length (forwards d))%nat /\
  (length (downloads d) <= 1)%nat /\
  (length (transcriptions d) <= length (downloads d))%nat /\
  (forall s, In s (sends d) ->
             Proto.remoteJid (Proto.key msg) = Some (snd (fst s)) /\
             JS.truthyb (Proto.fromMe (Proto.key msg)) = false).
Proof.
  intros d. subst d.
  destruct (dropped_or_passes msg) as [Hd | [jid passes]].
  - destruct (processMessage_of_dropped w sock msg h Hd) as [_ X].
    destruct (only_logs _ X) as (Dl & T & F & _ & S).
    rewrite Dl, T, F, S. cbn. repeat split; try lia; contradiction.
  - pose proof passes as (Hjid & _ & _ & Hme).
    destruct (JS.ifTruthy (MessageHandler.textContent msg)) as [body|] eqn:Hb.
    + destruct (text_observed w h sock msg jid passes body Hb)
        as (reply & F & _ & S & Dl & T & _).
      rewrite F, S, Dl, T. pose proof (sendFor_length sock jid reply).
      cbn [length].
      split; [lia|]. split; [lia|]. split; [lia|]. split; [lia|].
      intros s Hs. apply sendFor_in in Hs. rewrite Hs. split; assumption.
    + destruct (MessageHandler.audioMessageOf msg) as [audio|] eqn:Ha.
      * destruct (voice_observed w h sock msg jid passes audio Hb Ha)
          as (Dl & T & V).
        destruct (handleAudioMessage_cases w (beforeTranscription h) sock msg)
          as (_ & Ht & _).
        cbv zeta in Ht. rewrite Dl, T, Ht.
        assert (L : (length
                       match downloadAnswer w (beforeTranscription h) msg with
                       | Return (Some (x :: b)) => [transcribeForm (x :: b)]
                       | _ => []
                       end <= 1)%nat).
        { destruct (downloadAnswer _ _ _) as [[[|? ?]|]|]; cbn; lia. }
        destruct (transcription w h sock msg) as [tr|e]; [|contradiction].
        destruct (JS.ifTruthy tr) as [T'|].
        -- destruct V as (reply & F & _ & S & _). rewrite F, S.
           pose proof (sendFor_length sock jid reply).
           cbn [length] in *.
           split; [lia|]. split; [lia|]. split; [lia|]. split; [lia|].
           intros s Hs. apply sendFor_in in Hs. rewrite Hs.
           split; assumption.
        -- destruct V as (F & _ & S & _). rewrite F, S.
           cbn [length] in *. repeat split; try lia; contradiction.
      * unfold effects.
        rewrite (processMessage_unsupported w h sock msg jid passes Hb Ha).
        cbn. repeat split; try lia; contradiction.
Qed.

Lemma boundaryLog_quiet r :
  forwards (boundaryLog r) = [] /\ sends (boundaryLog r) = [] /\
  downloads (boundaryLog r) = [] /\ transcriptions (boundaryLog r) = [].
Proof. destruct r; repeat split. Qed.

Lemma batch_measured w sock msgs :
  forall h,
    let d := effects (MessageHandler.forEachMessage sock msgs) w h in
    (length (forwards d) <= length msgs)%nat /\
    (length (sends d) <= length (forwards d))%nat /\
    (length (downloads d) <= length msgs)%nat /\
    (length (transcriptions d) <= length (downloads d))%nat /\
    (forall s, In s (sends d) ->
       exists msg,
         In msg msgs /\
         Proto.remoteJid (Proto.key msg) = Some (snd (fst s)) /\
         JS.truthyb (Proto.fromMe (Proto.key msg)) = false).
Proof.
  induction msgs as [|m rest IH]; intros h d; subst d.
  - cbn. repeat split; try lia; contradiction.
  - rewrite forEachMessage_cons, effects_processGuarded.
    destruct (boundaryLog_quiet
                (result (MessageHandler.processMessage sock m) w h))
      as (Bf & Bs & Bd & Bt).
    rewrite !forwards_app, !sends_app, !downloads_app, !transcriptions_app,
      Bf, Bs, Bd, Bt, !app_nil_r, !length_app.
    destruct (processMessage_measured w h sock m) as (F & S & Dl & T & J).
    match goal with
    | |- context [effects (MessageHandler.forEachMessage sock rest) w ?h'] =>
        destruct (IH h') as (F' & S' & Dl' & T' & J')
    end.
    cbn [length].
    split; [lia|]. split; [lia|]. split; [lia|]. split; [lia|].
    intros s Hs. apply in_app_or in Hs. destruct Hs as [Hs|Hs].
    + exists m. split; [now left | apply J, Hs].
    + destruct (J' s Hs) as (msg & Hin & Hj).
      exists msg. split; [now right | exact Hj].
Qed.


(** X5.  Every send that the handler makes goes out on the socket the
    handler was registered on, carries a text that is not empty, and is
    addressed to the conversation id of an event of the same batch that
    was not sent by us; it is never addressed to ["status@broadcast"]. *)
Theorem replies_go_back_to_the_writer :
  forall (w : World) (h : Trace) (sock : WASocket)
         (msgs : list Proto.WebMessageInfo) (type : string)
         (s : WASocket) (jid txt : string),
    In (s, jid, txt)
       (sends (effects (MessageHandler.onMessagesUpsert sock msgs type) w h)) ->
    s = sock /\ txt <> "" /\ jid <> "" /\ jid <> "status@broadcast" /\
    exists msg,
      In msg msgs /\
      Proto.remoteJid (Proto.key msg) = Some jid /\
      JS.truthyb (Proto.fromMe (Proto.key msg)) = false.
Proof.
  intros w h sock msgs type s jid txt Hin.
  destruct (in_sends _ _ Hin) as (answer & He). cbn [fst snd] in He.
  pose proof (upsert_wellFormed w h sock msgs type) as W.
  rewrite Forall_forall in W. specialize (W _ He). cbn in W.
  destruct W as (-> & Hj & Hsb & Ht).
  repeat split; try assumption.
  revert Hin. unfold effects, MessageHandler.onMessagesUpsert.
  destruct (negb (String.eqb type "notify")); [contradiction|].
  intros Hin.
  destruct (batch_measured w sock msgs h) as (_ & _ & _ & _ & J).
  apply (J (sock, jid, txt) Hin).
Qed.

Lemma replies_go_back_to_the_writer_witness :
  In (0%nat, "123@g.us", "echo: [group:123@g.us] hi")
     (sends
        (effects
           (MessageHandler.onMessagesUpsert 0
              [Sample.groupTextIn "123@g.us" "alice@s.whatsapp.net" "hi"]
              "notify")
           (Sample.friendly "") [])) /\
  "123@g.us" <> "status@broadcast".
Proof.
  assert (H : In (0%nat, "123@g.us", "echo: [group:123@g.us] hi")
                 (sends
                    (effects
                       (MessageHandler.onMessagesUpsert 0
                          [Sample.groupTextIn "123@g.us"
                             "alice@s.whatsapp.net" "hi"]
                          "notify")
                       (Sample.friendly "") []))).
  { left. reflexivity. }
  split; [exact H|].
  exact (proj1 (proj2 (proj2 (proj2
           (replies_go_back_to_the_writer (Sample.friendly "") [] 0
              [Sample.groupTextIn "123@g.us" "alice@s.whatsapp.net" "hi"]
              "notify" 0 "123@g.us" "echo: [group:123@g.us] hi" H))))).
Defined.

(** ** One event *)

(** X6.  An event that passes the filters and carries neither a text nor
    an audio payload is logged and ignored: no collaborator is called and
    [processMessage] returns normally. *)
Theorem unsupported_event_is_ignored :
  forall (w : World) (h : Trace) (sock : WASocket)
         (msg : Proto.WebMessageInfo) (jid : string),
    passesFilters msg jid ->
    JS.ifTruthy (MessageHandler.textContent msg) = None ->
    MessageHandler.audioMessageOf msg = None ->
    result (MessageHandler.processMessage sock msg) w h = Return tt /\
    external (effects (MessageHandler.processMessage sock msg) w h) = [] /\
    effects (MessageHandler.processMessage sock msg) w h =
      [ELog "message-handler" Info "Incoming message";
       ELog "message-handler" Debug "Ignoring unsupported message type"].
Proof.
  intros w h sock msg jid passes Hb Ha. unfold result, effects.
  rewrite (processMessage_unsupported w h sock msg jid passes Hb Ha).
  repeat split.
Qed.

(** X7.  The only exception that [processMessage] lets out is the one of
    a failed send: when it throws, the last thing it did was a
    [sock.sendMessage] to the conversation of the event, and the exception
    thrown is the one that send gave. *)
Theorem only_a_failed_send_throws :
  forall (w : World) (h : Trace) (sock : WASocket)
         (msg : Proto.WebMessageInfo) (e : Exn),
    result (MessageHandler.processMessage sock msg) w h = Throw e ->
    exists jid txt before,
      Proto.remoteJid (Proto.key msg) = Some jid /\
      effects (MessageHandler.processMessage sock msg) w h =
        before ++ [ESendMessage sock jid txt (Throw e)].
Proof.
  intros w h sock msg e Hr.
  destruct (dropped_or_passes msg) as [Hd | [jid passes]].
  - destruct (processMessage_of_dropped w sock msg h Hd) as [R _].
    rewrite R in Hr. discriminate.
  - pose proof passes as (Hjid & _).
    assert (Tail : forall reply h' (pre : Trace),
              result (MessageHandler.sendReply sock jid reply) w h' = Throw e ->
              exists txt before,
                pre ++ effects (MessageHandler.sendReply sock jid reply) w h'
                = before ++ [ESendMessage sock jid txt (Throw e)]).
    { intros reply h' pre R. unfold result, effects in *.
      destruct (sendReply_shape w h' sock jid reply) as [E | (txt & _ & E)];
        rewrite E in *; cbn [fst snd] in *; [discriminate|].
      rewrite R. exists txt, pre. reflexivity. }
    exists jid.
    destruct (JS.ifTruthy (MessageHandler.textContent msg)) as [body|] eqn:Hb.
    + unfold result, effects in *.
      rewrite (processMessage_text w h sock msg jid passes body Hb) in *.
      cbn [fst snd] in *.
      match goal with
      | |- context [?a ++ ?b ++ effects (MessageHandler.sendReply _ _ ?r) w ?h'] =>
          destruct (Tail r h' (a ++ b) Hr) as (txt & before & E)
      end.
      exists txt, before. split; [exact Hjid|].
      rewrite <- E. now rewrite <- app_assoc.
    + destruct (MessageHandler.audioMessageOf msg) as [audio|] eqn:Ha.
      * unfold result, effects in Hr |- *.
        rewrite (processMessage_voice w h sock msg jid passes audio Hb Ha)
          in *.
        destruct (voice_observed w h sock msg jid passes audio Hb Ha)
          as (_ & _ & V).
        destruct (transcription w h sock msg) as [tr|e']; [|contradiction].
        destruct (JS.ifTruthy tr) as [T|]; cbn [fst snd] in *;
          [|discriminate].
        match goal with
        | |- context [?a ++ ?b ++ ?c ++
                      effects (MessageHandler.sendReply _ _ ?r) w ?h'] =>
            destruct (Tail r h' (a ++ b ++ c) Hr) as (txt & before & E)
        end.
        exists txt, before. split; [exact Hjid|].
        rewrite <- E. now rewrite <- !app_assoc.
      * unfold result in Hr.
        rewrite (processMessage_unsupported w h sock msg jid passes Hb Ha)
          in Hr.
        discriminate.
Qed.

Lemma unsupported_event_is_ignored_witness :
  passesFilters (Sample.stickerIn "bob@s.whatsapp.net") "bob@s.whatsapp.net" /\
  external
    (effects
       (MessageHandler.processMessage 0 (Sample.stickerIn "bob@s.whatsapp.net"))
       (Sample.friendly "") []) = [].
Proof.
  assert (P : passesFilters (Sample.stickerIn "bob@s.whatsapp.net")
                "bob@s.whatsapp.net") by (repeat split; discriminate).
  split; [exact P|].
  exact (proj1 (proj2
           (unsupported_event_is_ignored (Sample.friendly "") [] 0
              (Sample.stickerIn "bob@s.whatsapp.net") "bob@s.whatsapp.net"
              P eq_refl eq_refl))).
Defined.

Lemma only_a_failed_send_throws_witness :
  result
    (MessageHandler.processMessage 0 (Sample.textIn "a@s.whatsapp.net" "one"))
    Sample.firstSendFails [] = Throw (OtherError "Connection Closed") /\
  exists jid txt before,
    Proto.remoteJid (Proto.key (Sample.textIn "a@s.whatsapp.net" "one"))
      = Some jid /\
    effects
      (MessageHandler.processMessage 0 (Sample.textIn "a@s.whatsapp.net" "one"))
      Sample.firstSendFails [] =
    before ++ [ESendMessage 0 jid txt (Throw (OtherError "Connection Closed"))].
Proof.
  assert (H : result
                (MessageHandler.processMessage 0
                   (Sample.textIn "a@s.whatsapp.net" "one"))
                Sample.firstSendFails []
              = Throw (OtherError "Connection Closed")) by reflexivity.
  split; [exact H|].
  exact (only_a_failed_send_throws Sample.firstSendFails [] 0
           (Sample.textIn "a@s.whatsapp.net" "one") _ H).
Defined.

(** X8.  The text of an event is its plain [conversation] field when that
    is a non-empty string, whatever [extendedTextMessage] holds; when the
    plain field is missing or empty, it is the [text] of
    [extendedTextMessage].  That text, with the group tag if any, is what
    is forwarded. *)
Theorem plain_text_wins_over_extended_text :
  forall (w : World) (h : Trace) (sock : WASocket)
         (msg : Proto.WebMessageInfo) (jid : string) (m : Proto.Message),
    passesFilters msg jid ->
    Proto.message msg = Some m ->
    let d := effects (MessageHandler.processMessage sock msg) w h in
    let tag :=
      if JS.endsWith jid "@g.us" then ("[group:" ++ jid ++ "] ")%string
      else "" in
    (forall plain,
       Proto.conversation m = Some plain -> plain <> "" ->
       map content (forwards d) = [(tag ++ plain)%string]) /\
    (forall ext quoted,
       Proto.conversation m = None \/ Proto.conversation m = Some "" ->
       Proto.extendedTextMessage m = Some ext ->
       Proto.text ext = Some quoted -> quoted <> "" ->
       map content (forwards d) = [(tag ++ quoted)%string]).
Proof.
  intros w h sock msg jid m passes Hm d tag.
  assert (Fwd : forall body,
            JS.ifTruthy (MessageHandler.textContent msg) = Some body ->
            map content (forwards d) = [(tag ++ body)%string]).
  { intros body Hb.
    destruct (text_observed w h sock msg jid passes body Hb) as (r & F & _).
    subst d. rewrite F. reflexivity. }
  split.
  - intros plain Hc Hne. apply Fwd.
    unfold MessageHandler.textContent. rewrite Hm, Hc.
    unfold JS.or, JS.ifTruthy, JS.truthy.
    apply String.eqb_neq in Hne. rewrite Hne. cbn. now rewrite Hne.
  - intros ext quoted Hc He Ht Hne. apply Fwd.
    unfold MessageHandler.textContent. rewrite Hm, He, Ht.
    apply String.eqb_neq in Hne.
    destruct Hc as [-> | ->]; unfold JS.or, JS.ifTruthy, JS.truthy; cbn;
      now rewrite Hne.
Qed.

Lemma plain_text_wins_over_extended_text_witness :
  passesFilters (Sample.quotedTextIn "bob@s.whatsapp.net" "so true")
    "bob@s.whatsapp.net" /\
  map content
    (forwards
       (effects
          (MessageHandler.processMessage 0
             (Sample.quotedTextIn "bob@s.whatsapp.net" "so true"))
          (Sample.friendly "") [])) = ["so true"].
Proof.
  assert (P : passesFilters (Sample.quotedTextIn "bob@s.whatsapp.net" "so true")
                "bob@s.whatsapp.net") by (repeat split; discriminate).
  split; [exact P|].
  refine (proj2
            (plain_text_wins_over_extended_text (Sample.friendly "") [] 0
               (Sample.quotedTextIn "bob@s.whatsapp.net" "so true")
               "bob@s.whatsapp.net" _ P eq_refl)
            {| Proto.text := Some "so true" |} "so true" _ eq_refl eq_refl _).
  - left. reflexivity.
  - discriminate.
Defined.

(** X9.  [processMessage] calls a collaborator only for an event that has
    a non-empty conversation id other than ["status@broadcast"], is not
    sent by us, and carries a text or an audio payload. *)
Theorem calls_only_for_routable_events :
  forall (w : World) (h : Trace) (sock : WASocket)
         (msg : Proto.WebMessageInfo),
    external (effects (MessageHandler.processMessage sock msg) w h) <> [] ->
    exists jid,
      Proto.remoteJid (Proto.key msg) = Some jid /\
      jid <> "" /\ jid <> "status@broadcast" /\
      JS.truthyb (Proto.fromMe (Proto.key msg)) = false /\
      (JS.ifTruthy (MessageHandler.textContent msg) <> None \/
       MessageHandler.audioMessageOf msg <> None).
Proof.
  intros w h sock msg Hx.
  destruct (dropped_or_passes msg) as [Hd | [jid passes]].
  - destruct (processMessage_of_dropped w sock msg h Hd) as [_ X].
    contradiction.
  - exists jid. destruct passes as (Hj & Hne & Hsb & Hme).
    repeat split; try assumption.
    destruct (JS.ifTruthy (MessageHandler.textContent msg)) eqn:Hb;
      [left; discriminate|].
    destruct (MessageHandler.audioMessageOf msg) eqn:Ha;
      [right; discriminate|].
    exfalso. apply Hx. unfold effects.
    rewrite (processMessage_unsupported w h sock msg jid); try assumption;
      [reflexivity | repeat split; assumption].
Qed.

Lemma calls_only_for_routable_events_witness :
  external
    (effects
       (MessageHandler.processMessage 0 (Sample.textIn "bob@s.whatsapp.net" "hi"))
       Sample.hostile []) <> [] /\
  exists jid,
    Proto.remoteJid (Proto.key (Sample.textIn "bob@s.whatsapp.net" "hi"))
      = Some jid /\ jid <> "".
Proof.
  assert (H : external
                (effects
                   (MessageHandler.processMessage 0
                      (Sample.textIn "bob@s.whatsapp.net" "hi"))
                   Sample.hostile []) <> []) by discriminate.
  split; [exact H|].
  destruct (calls_only_for_routable_events Sample.hostile [] 0
              (Sample.textIn "bob@s.whatsapp.net" "hi") H)
    as (jid & Hj & Hne & _).
  exists jid. split; assumption.
Defined.

(** X10.  The audio that [handleAudioMessage] posts to the transcription
    backend is the buffer it has just downloaded for the same message,
    and that buffer is not empty; it asks for exactly one download. *)
Theorem posted_audio_is_the_download :
  forall (w : World) (h : Trace) (sock : WASocket)
         (msg : Proto.WebMessageInfo) (parts : list FormPart),
    In parts
       (transcriptions
          (effects (AudioHandler.handleAudioMessage sock msg) w h)) ->
    downloads (effects (AudioHandler.handleAudioMessage sock msg) w h)
      = [msg] /\
    exists b,
      b <> [] /\
      downloadAnswer w h msg = Return (Some b) /\
      parts = [ {| fieldName := "file"; value := b;
                   filename := "voice.ogg"; contentType := "audio/ogg" |} ].
Proof.
  intros w h sock msg parts Hin.
  destruct (handleAudioMessage_cases w h sock msg) as (_ & Ht & Dl & _).
  cbv zeta in Ht, Dl. split; [exact Dl|].
  rewrite Ht in Hin.
  destruct (downloadAnswer w h msg) as [[[|x b]|]|e]; try contradiction.
  destruct Hin as [<-|[]].
  exists (x :: b). repeat split. discriminate.
Qed.

Lemma posted_audio_is_the_download_witness :
  In (transcribeForm [x4f; x67; x67; x53])
     (transcriptions
        (effects (AudioHandler.handleAudioMessage 0 (Sample.voiceIn "123@g.us"))
           (Sample.friendly "hi") [])) /\
  downloads
    (effects (AudioHandler.handleAudioMessage 0 (Sample.voiceIn "123@g.us"))
       (Sample.friendly "hi") []) = [Sample.voiceIn "123@g.us"].
Proof.
  assert (H : In (transcribeForm [x4f; x67; x67; x53])
                 (transcriptions
                    (effects
                       (AudioHandler.handleAudioMessage 0
                          (Sample.voiceIn "123@g.us"))
                       (Sample.friendly "hi") []))) by (left; reflexivity).
  split; [exact H|].
  exact (proj1 (posted_audio_is_the_download (Sample.friendly "hi") [] 0
                  (Sample.voiceIn "123@g.us") _ H)).
Defined.

(** ** More on the connection lifecycle *)

Section LifecycleMore.

Import Whatsapp.

Variable loggedOut : Z.

(** What the [connection.update] handler does to the state, by the kind
    of the update. *)
Lemma onConnectionUpdate_cases sock update st :
  let st' := onConnectionUpdate loggedOut sock update st in
  sockets st' = sockets st /\
  connectCalls st' = connectCalls st /\
  match connection update with
  | Some close =>
      if shouldReconnect loggedOut update
      then socket st' = socket st /\ timers st' = timers st ++ [reconnectTimer]
      else socket st' = None /\ timers st' = timers st
  | Some open => socket st' = Some sock /\ timers st' = timers st
  | _ => socket st' = socket st /\ timers st' = timers st
  end.
Proof.
  unfold onConnectionUpdate.
  destruct (connection update) as [[]|]; cbn [isClose isOpen];
    [destruct (shouldReconnect loggedOut update)|..];
    destruct (JS.truthy (qr update)); repeat split.
Qed.

Lemma connectWhatsApp_cases ok st :
  let st' := snd (connectWhatsApp ok st) in
  connectCalls st' = S (connectCalls st) /\
  timers st' = timers st /\
  if ok
  then fst (connectWhatsApp ok st) = Return (sockets st) /\
       socket st' = Some (sockets st) /\ sockets st' = S (sockets st)
  else (exists e, fst (connectWhatsApp ok st) = Throw e) /\
       socket st' = socket st /\ sockets st' = sockets st.
Proof.
  unfold connectWhatsApp. destruct ok; cbn; repeat split. eauto.
Qed.

Lemma initWhatsApp_cases dirExists ok st :
  let st' := snd (initWhatsApp dirExists ok st) in
  connectCalls st' = S (connectCalls st) /\
  timers st' = timers st /\
  if ok
  then fst (initWhatsApp dirExists ok st) = Return (sockets st) /\
       socket st' = Some (sockets st) /\ sockets st' = S (sockets st)
  else (exists e, fst (initWhatsApp dirExists ok st) = Throw e) /\
       socket st' = socket st /\ sockets st' = sockets st.
Proof.
  unfold initWhatsApp.
  destruct (negb dirExists);
    [apply (connectWhatsApp_cases ok (logLine _ _ st))
    |apply connectWhatsApp_cases].
Qed.

Lemma fireTimer_cases ok st :
  let st' := fireTimer ok st in
  match timers st with
  | [] => st' = st
  | tm :: rest =>
      connectCalls st' = S (connectCalls st) /\
      timers st' = rest /\
      if ok
      then socket st' = Some (sockets st) /\ sockets st' = S (sockets st)
      else socket st' = socket st /\ sockets st' = sockets st
  end.
Proof.
  unfold fireTimer. destruct (timers st) as [|[[] ms] rest]; [reflexivity|].
  unfold runCallback, connectWhatsApp. cbn [callback].
  destruct ok; cbn; repeat split.
Qed.

Lemma sound_step ev st : sound st -> sound (step loggedOut ev st).
Proof.
  intros (Hs & Hc & Ht). destruct ev as [dirExists ok|sock update|ok|];
    cbn [step].
  - pose proof (initWhatsApp_cases dirExists ok st) as (C & T & K).
    cbv zeta in *. unfold sound. rewrite C, T.
    destruct ok.
    + destruct K as (_ & S1 & S2). rewrite S1, S2.
      repeat split; try lia; try assumption. intros s [= <-]. lia.
    + destruct K as (_ & S1 & S2). rewrite S1, S2.
      repeat split; try lia; assumption.
  - destruct (Nat.ltb_spec sock (sockets st)) as [Hlt|_];
      [|repeat split; assumption].
    pose proof (onConnectionUpdate_cases sock update st) as (S1 & C & K).
    cbv zeta in *. unfold sound. rewrite S1, C.
    destruct (connection update) as [[]|].
    + destruct (shouldReconnect loggedOut update);
        destruct K as (K1 & K2); rewrite K1, K2.
      * repeat split; try assumption.
        apply Forall_app. split; [assumption | repeat constructor].
      * repeat split; try assumption. discriminate.
    + destruct K as (K1 & K2). rewrite K1, K2.
      repeat split; try assumption. intros s [= <-]. exact Hlt.
    + destruct K as (K1 & K2). rewrite K1, K2. repeat split; assumption.
    + destruct K as (K1 & K2). rewrite K1, K2. repeat split; assumption.
  - pose proof (fireTimer_cases ok st) as K. cbv zeta in K.
    destruct (timers st) as [|tm rest] eqn:E.
    + rewrite K. unfold sound. rewrite E. repeat split; assumption.
    + destruct K as (C & T & K). unfold sound. rewrite C, T.
      inversion Ht; subst.
      destruct ok; destruct K as (K1 & K2); rewrite K1, K2;
        repeat split; try lia; try assumption.
      intros s [= <-]. lia.
  - repeat split; assumption.
Qed.

Lemma sound_run events :
  forall st, sound st -> sound (run loggedOut events st).
Proof.
  induction events as [|ev rest IH]; intros st H; [exact H|].
  cbn [run]. apply IH, sound_step, H.
Qed.

(** A connect attempt or a pending timer is paid for by a call of
    [initWhatsApp] or by a close with a transient code. *)
Lemma budget_step ev st :
  (connectCalls (step loggedOut ev st) + length (timers (step loggedOut ev st))
   <= connectCalls st + length (timers st)
      + (if isInit ev then 1 else 0)
      + (if isTransientClose loggedOut ev then 1 else 0))%nat.
Proof.
  destruct ev as [dirExists ok|sock update|ok|];
    cbn [step isInit isTransientClose].
  - pose proof (initWhatsApp_cases dirExists ok st) as (C & T & _).
    cbv zeta in *. rewrite C, T. lia.
  - destruct (sock <? sockets st)%nat; [|lia].
    pose proof (onConnectionUpdate_cases sock update st) as (_ & C & K).
    cbv zeta in *. rewrite C.
    destruct (connection update) as [[]|]; cbn [isClose andb].
    + destruct (shouldReconnect loggedOut update);
        destruct K as (_ & ->); rewrite ?length_app; cbn; lia.
    + destruct K as (_ & ->). lia.
    + destruct K as (_ & ->). lia.
    + destruct K as (_ & ->). lia.
  - pose proof (fireTimer_cases ok st) as K. cbv zeta in K.
    destruct (timers st) as [|tm rest] eqn:E.
    + rewrite K, E. lia.
    + destruct K as (C & T & _). rewrite C, T. cbn. lia.
  - cbn. lia.
Qed.

Lemma budget_run events :
  forall st,
    (connectCalls (run loggedOut events st)
       + length (timers (run loggedOut events st))
     <= connectCalls st + length (timers st)
        + length (filter isInit events)
        + length (filter (isTransientClose loggedOut) events))%nat.
Proof.
  induction events as [|ev rest IH]; intros st; [cbn; lia|].
  cbn [run filter]. specialize (IH (step loggedOut ev st)).
  pose proof (budget_step ev st).
  destruct (isInit ev), (isTransientClose loggedOut ev); cbn [length]; lia.
Qed.

(** With no timer pending, expiries and reads change nothing. *)
Lemma idle_run events :
  forall st,
    timers st = [] -> forallb isInternal events = true ->
    run loggedOut events st = st.
Proof.
  induction events as [|ev rest IH]; intros st Ht Hev; [reflexivity|].
  cbn [forallb] in Hev. apply andb_prop in Hev. destruct Hev as [H1 H2].
  cbn [run].
  assert (E : step loggedOut ev st = st).
  { destruct ev; try discriminate; cbn [step].
    - unfold fireTimer. now rewrite Ht.
    - reflexivity. }
  rewrite E. apply IH; assumption.
Qed.

End LifecycleMore.

(** X11.  In every state that the module can reach, the handle that
    [getSocket()] returns, when it is not [null], is a socket that a
    successful [connectWhatsApp] has made; no more sockets were made than
    [connectWhatsApp] was called; and every pending timer is a reconnect
    due after 3000 ms. *)
Theorem handle_names_a_made_socket :
  forall (loggedOut : Z) (events : list Whatsapp.Event),
    let st := Whatsapp.run loggedOut events Whatsapp.initial in
    (forall s, fst (Whatsapp.getSocket st) = Some s ->
               (s < Whatsapp.sockets st)%nat) /\
    (Whatsapp.sockets st <= Whatsapp.connectCalls st)%nat /\
    (forall tm, In tm (Whatsapp.timers st) ->
                Whatsapp.callback tm = Whatsapp.Reconnect /\
                Whatsapp.delay tm = 3000%Z).
Proof.
  intros loggedOut events st.
  assert (S0 : sound Whatsapp.initial).
  { repeat split; cbn; try lia; try constructor. discriminate. }
  destruct (sound_run loggedOut events Whatsapp.initial S0) as (H1 & H2 & H3).
  fold st in H1, H2, H3.
  split; [exact H1|]. split; [exact H2|].
  intros tm Hin. rewrite Forall_forall in H3. rewrite <- (H3 tm Hin).
  split; reflexivity.
Qed.

Lemma handle_names_a_made_socket_witness :
  (1 < Whatsapp.sockets
         (Whatsapp.run 401
            [Whatsapp.Init true true;
             Whatsapp.ConnectionUpdate 0 (Sample.closed 408);
             Whatsapp.TimerExpires true]
            Whatsapp.initial))%nat.
Proof.
  apply (proj1 (handle_names_a_made_socket 401
                  [Whatsapp.Init true true;
                   Whatsapp.ConnectionUpdate 0 (Sample.closed 408);
                   Whatsapp.TimerExpires true])).
  reflexivity.
Defined.

(** X12.  Reconnects do not pile up: along any run, the calls of
    [connectWhatsApp] made so far together with the timers still pending
    are at most the calls of [initWhatsApp] plus the close events with a
    transient code. *)
Theorem reconnects_are_paid_for :
  forall (loggedOut : Z) (events : list Whatsapp.Event),
    let st := Whatsapp.run loggedOut events Whatsapp.initial in
    (Whatsapp.connectCalls st + length (Whatsapp.timers st)
     <= length (filter isInit events)
        + length (filter (isTransientClose loggedOut) events))%nat.
Proof.
  intros loggedOut events st.
  pose proof (budget_run loggedOut events Whatsapp.initial) as B.
  fold st in B. cbn in B. lia.
Qed.

(** X13.  One event changes the handle in three ways only: a close with
    the logged-out code, on a socket that was made, sets it to [null]; an
    open, on a socket that was made, sets it to that socket; a connect
    that succeeds (from [initWhatsApp] or from an expired timer) sets it
    to the socket just made.  Every other event, also a connect that
    fails, a close with a transient code, an update for a QR code, leaves
    the handle as it is. *)
Theorem handle_changes_only_by :
  forall (loggedOut : Z) (ev : Whatsapp.Event) (st : Whatsapp.State),
    let st' := Whatsapp.step loggedOut ev st in
    Whatsapp.socket st' = Whatsapp.socket st \/
    (exists sock update,
       ev = Whatsapp.ConnectionUpdate sock update /\
       (sock < Whatsapp.sockets st)%nat /\
       Whatsapp.connection update = Some Whatsapp.close /\
       Whatsapp.statusCodeOf update = Some loggedOut /\
       Whatsapp.socket st' = None) \/
    (exists sock update,
       ev = Whatsapp.ConnectionUpdate sock update /\
       (sock < Whatsapp.sockets st)%nat /\
       Whatsapp.connection update = Some Whatsapp.open /\
       Whatsapp.socket st' = Some sock) \/
    (((exists dirExists, ev = Whatsapp.Init dirExists true) \/
      (ev = Whatsapp.TimerExpires true /\ Whatsapp.timers st <> [])) /\
     Whatsapp.socket st' = Some (Whatsapp.sockets st) /\
     Whatsapp.sockets st' = S (Whatsapp.sockets st)).
Proof.
  intros loggedOut ev st st'. subst st'.
  destruct ev as [dirExists ok|sock update|ok|]; cbn [Whatsapp.step].
  - pose proof (initWhatsApp_cases dirExists ok st) as (_ & _ & K).
    cbv zeta in K. destruct ok.
    + destruct K as (_ & K1 & K2). right. right. right. eauto.
    + destruct K as (_ & K1 & _). now left.
  - destruct (Nat.ltb_spec sock (Whatsapp.sockets st)) as [Hlt|_];
      [|now left].
    pose proof (onConnectionUpdate_cases loggedOut sock update st)
      as (_ & _ & K).
    cbv zeta in K.
    destruct (Whatsapp.connection update) as [[]|] eqn:Ec.
    + unfold Whatsapp.shouldReconnect in K.
      destruct (Whatsapp.statusCodeOf update) as [c|] eqn:Es.
      * destruct (Z.eqb_spec c loggedOut) as [->|Hne]; cbn [negb] in K.
        -- right. left. exists sock, update. repeat split; try assumption.
           apply K.
        -- left. apply K.
      * left. apply K.
    + right. right. left. exists sock, update. repeat split; try assumption.
      apply K.
    + left. apply K.
    + left. apply K.
  - pose proof (fireTimer_cases ok st) as K. cbv zeta in K.
    destruct (Whatsapp.timers st) as [|tm rest] eqn:E.
    + left. now rewrite K.
    + destruct K as (_ & _ & K). destruct ok.
      * right. right. right. split; [|exact K].
        right. split; [reflexivity | discriminate].
      * left. apply K.
  - now left.
Qed.

(** X14.  A reconnect that fails is not tried again: when the only
    pending timer expires and [connectWhatsApp] rejects, one call of
    [connectWhatsApp] has been made, no timer is pending, and the handle
    and the sockets are what they were; and from there on, as long as the
    transport delivers no event, further expiries and reads change
    nothing. *)
Theorem failed_reconnect_is_final :
  forall (loggedOut : Z) (st : Whatsapp.State) (tm : Whatsapp.Timer)
         (events : list Whatsapp.Event),
    Whatsapp.timers st = [tm] ->
    forallb isInternal events = true ->
    let st' :=
      Whatsapp.run loggedOut (Whatsapp.TimerExpires false :: events) st in
    Whatsapp.socket st' = Whatsapp.socket st /\
    Whatsapp.sockets st' = Whatsapp.sockets st /\
    Whatsapp.timers st' = [] /\
    Whatsapp.connectCalls st' = S (Whatsapp.connectCalls st) /\
    st' = Whatsapp.fireTimer false st.
Proof.
  intros loggedOut st tm events Ht Hev st'. subst st'.
  cbn [Whatsapp.run Whatsapp.step].
  pose proof (fireTimer_cases false st) as K. cbv zeta in K.
  rewrite Ht in K. destruct K as (C & T & S1 & S2).
  rewrite (idle_run loggedOut events _ T Hev).
  repeat split; assumption.
Qed.

Lemma failed_reconnect_is_final_witness :
  Whatsapp.socket
    (Whatsapp.run 401
       [Whatsapp.TimerExpires false; Whatsapp.TimerExpires true;
        Whatsapp.GetSocket]
       (Whatsapp.onConnectionUpdate 401 0 (Sample.closed 408)
          Sample.connected)) = Some 0%nat /\
  Whatsapp.timers
    (Whatsapp.run 401
       [Whatsapp.TimerExpires false; Whatsapp.TimerExpires true;
        Whatsapp.GetSocket]
       (Whatsapp.onConnectionUpdate 401 0 (Sample.closed 408)
          Sample.connected)) = [].
Proof.
  pose proof (failed_reconnect_is_final 401
                (Whatsapp.onConnectionUpdate 401 0 (Sample.closed 408)
                   Sample.connected)
                reconnectTimer
                [Whatsapp.TimerExpires true; Whatsapp.GetSocket]
                eq_refl eq_refl) as H.
  cbv zeta in H. destruct H as (S1 & _ & T & _).
  split; [exact S1 | exact T].
Defined.

(** ** The HTTP front door *)

Lemma apiSend_cases w h st body :
  Index.apiSend st body w h =
  match body with
  | None =>
      (Return {| Index.code := 500;
                 Index.json := Index.ErrorJson "Failed to send message" |},
       [ELog Index.logger Error "Failed to send WhatsApp message"])
  | Some b =>
      match JS.ifTruthy (Index.recipient b), JS.ifTruthy (Index.message b) with
      | Some to, Some txt =>
          match Whatsapp.socket st with
          | None =>
              (Return {| Index.code := 503;
                         Index.json := Index.ErrorJson "WhatsApp not connected" |},
               [])
          | Some sock =>
              match sendMessage w h sock to txt with
              | Return _ =>
                  (Return {| Index.code := 200;
                             Index.json := Index.SentJson "sent" to |},
                   [ESendMessage sock to txt (sendMessage w h sock to txt);
                    ELog Index.logger Info "Message sent to WhatsApp"])
              | Throw _ =>
                  (Return {| Index.code := 500;
                             Index.json :=
                               Index.ErrorJson "Failed to send message" |},
                   [ESendMessage sock to txt (sendMessage w h sock to txt);
                    ELog Index.logger Error "Failed to send WhatsApp message"])
              end
          end
      | _, _ =>
          (Return {| Index.code := 400;
                     Index.json :=
                       Index.ErrorJson
                         "Missing 'recipient' or 'message' in request body" |},
           [])
      end
  end.
Proof.
  unfold Index.apiSend, tryCatch.
  destruct body as [b|]; [|reflexivity].
  destruct (JS.ifTruthy (Index.recipient b)) as [to|];
    [|reflexivity].
  destruct (JS.ifTruthy (Index.message b)) as [txt|]; [|reflexivity].
  cbn [Whatsapp.getSocket fst].
  destruct (Whatsapp.socket st) as [sock|]; [|reflexivity].
  unfold bind, sockSendMessage, log, ret. cbn [fst snd app].
  destruct (sendMessage w h sock to txt) as [[]|e]; reflexivity.
Qed.

Lemma ifTruthy_of s : s <> "" -> JS.ifTruthy (Some s) = Some s.
Proof.
  intros H. unfold JS.ifTruthy, JS.truthy.
  apply String.eqb_neq in H. now rewrite H.
Qed.

Lemma ifTruthy_none x : JS.truthy x = false -> JS.ifTruthy x = None.
Proof. unfold JS.ifTruthy. now intros ->. Qed.

(** X15.  [POST /api/send] never throws and answers in one of four ways.
    Without a body it answers 500.  With a body that lacks a non-empty
    [recipient] or [message] it answers 400 and does nothing.  With both,
    when the handle is [null] it answers 503 and does nothing; otherwise
    it makes exactly one send, of that message to that recipient on the
    current handle, and answers 200 with the recipient when the send
    succeeds and 500 when the send throws. *)
Theorem api_send_outcomes :
  forall (w : World) (h : Trace) (st : Whatsapp.State)
         (body : option Index.SendBody),
    let r := result (Index.apiSend st body) w h in
    let d := effects (Index.apiSend st body) w h in
    let failed :=
      {| Index.code := 500;
         Index.json := Index.ErrorJson "Failed to send message" |} in
    (exists response, r = Return response) /\
    (body = None -> r = Return failed /\ external d = []) /\
    (forall b,
       body = Some b ->
       JS.truthy (Index.recipient b) = false \/
       JS.truthy (Index.message b) = false ->
       r = Return
             {| Index.code := 400;
                Index.json :=
                  Index.ErrorJson
                    "Missing 'recipient' or 'message' in request body" |} /\
       d = []) /\
    (forall b to txt,
       body = Some b ->
       Index.recipient b = Some to -> to <> "" ->
       Index.message b = Some txt -> txt <> "" ->
       match fst (Whatsapp.getSocket st) with
       | None =>
           r = Return
                 {| Index.code := 503;
                    Index.json := Index.ErrorJson "WhatsApp not connected" |} /\
           d = []
       | Some sock =>
           external d =
             [ESendMessage sock to txt (sendMessage w h sock to txt)] /\
           match sendMessage w h sock to txt with
           | Return _ =>
               r = Return {| Index.code := 200;
                             Index.json := Index.SentJson "sent" to |}
           | Throw _ => r = Return failed
           end
       end).
Proof.
  intros w h st body r d failed. subst r d failed. unfold result, effects.
  rewrite apiSend_cases.
  split; [|split; [|split]].
  - destruct body as [b|]; [|cbn [fst]; eauto].
    destruct (JS.ifTruthy (Index.recipient b)); [|cbn [fst]; eauto].
    destruct (JS.ifTruthy (Index.message b)); [|cbn [fst]; eauto].
    destruct (Whatsapp.socket st); [|cbn [fst]; eauto].
    destruct (sendMessage w h _ _ _); cbn [fst]; eauto.
  - intros ->. split; reflexivity.
  - intros b -> [H|H]; rewrite (ifTruthy_none _ H).
    + split; reflexivity.
    + destruct (JS.ifTruthy (Index.recipient b)); split; reflexivity.
  - intros b to txt -> Hr Hto Hm Htxt.
    rewrite Hr, Hm, (ifTruthy_of to Hto), (ifTruthy_of txt Htxt).
    cbn [Whatsapp.getSocket fst].
    destruct (Whatsapp.socket st) as [sock|]; [|split; reflexivity].
    destruct (sendMessage w h sock to txt) as [[]|e]; split; reflexivity.
Qed.

Lemma api_send_outcomes_witness :
  result
    (Index.apiSend Sample.connected
       (Some {| Index.recipient := Some "bob@s.whatsapp.net";
                Index.message := Some "ping" |}))
    (Sample.friendly "") [] =
  Return {| Index.code := 200;
            Index.json := Index.SentJson "sent" "bob@s.whatsapp.net" |}.
Proof.
  pose proof (proj2 (proj2 (proj2
    (api_send_outcomes (Sample.friendly "") [] Sample.connected
       (Some {| Index.recipient := Some "bob@s.whatsapp.net";
                Index.message := Some "ping" |}))))
    {| Index.recipient := Some "bob@s.whatsapp.net";
       Index.message := Some "ping" |}
    "bob@s.whatsapp.net" "ping" eq_refl eq_refl) as H.
  assert (N1 : "bob@s.whatsapp.net" <> "") by discriminate.
  assert (N2 : "ping" <> "") by discriminate.
  exact (proj2 (H N1 eq_refl N2)).
Defined.

(** X16.  In every state that the module can reach, a send made by
    [POST /api/send] goes out on the handle that [getSocket()] returns at
    that moment, which is a socket that was made, and carries the
    recipient and the message of the request. *)
Theorem api_send_uses_the_current_handle :
  forall (loggedOut : Z) (events : list Whatsapp.Event)
         (w : World) (h : Trace) (body : option Index.SendBody)
         (s : WASocket) (to txt : string),
    let st := Whatsapp.run loggedOut events Whatsapp.initial in
    In (s, to, txt) (sends (effects (Index.apiSend st body) w h)) ->
    fst (Whatsapp.getSocket st) = Some s /\
    (s < Whatsapp.sockets st)%nat /\
    exists b,
      body = Some b /\
      Index.recipient b = Some to /\ Index.message b = Some txt /\
      sends (effects (Index.apiSend st body) w h) = [(s, to, txt)].
Proof.
  intros loggedOut events w h body s to txt st Hin.
  assert (S0 : sound Whatsapp.initial).
  { repeat split; cbn; try lia; try constructor. discriminate. }
  destruct (sound_run loggedOut events Whatsapp.initial S0) as (H1 & _).
  fold st in H1.
  unfold effects in *. rewrite apiSend_cases in *.
  destruct body as [b|]; [|contradiction].
  destruct (JS.ifTruthy (Index.recipient b)) as [to'|] eqn:Er;
    [|contradiction].
  destruct (JS.ifTruthy (Index.message b)) as [txt'|] eqn:Em;
    [|contradiction].
  apply ifTruthy_some in Er, Em.
  cbn [Whatsapp.getSocket fst].
  destruct (Whatsapp.socket st) as [sock|] eqn:Es; [|contradiction].
  assert (E : (s, to, txt) = (sock, to', txt')).
  { destruct (sendMessage w h sock to' txt'); cbn in Hin;
      destruct Hin as [E|[]]; now symmetry. }
  injection E as -> -> ->.
  split; [reflexivity|]. split; [apply H1; reflexivity|].
  exists b. split; [reflexivity|]. split; [apply Er|]. split; [apply Em|].
  destruct (sendMessage w h sock to' txt'); reflexivity.
Qed.

Lemma api_send_uses_the_current_handle_witness :
  In (0%nat, "bob@s.whatsapp.net", "ping")
     (sends
        (effects
           (Index.apiSend
              (Whatsapp.run 401 [Whatsapp.Init true true] Whatsapp.initial)
              (Some {| Index.recipient := Some "bob@s.whatsapp.net";
                       Index.message := Some "ping" |}))
           Sample.hostile [])) /\
  fst (Whatsapp.getSocket
         (Whatsapp.run 401 [Whatsapp.Init true true] Whatsapp.initial))
    = Some 0%nat.
Proof.
  assert (H : In (0%nat, "bob@s.whatsapp.net", "ping")
                 (sends
                    (effects
                       (Index.apiSend
                          (Whatsapp.run 401 [Whatsapp.Init true true]
                             Whatsapp.initial)
                          (Some {| Index.recipient := Some "bob@s.whatsapp.net";
                                   Index.message := Some "ping" |}))
                       Sample.hostile []))) by (left; reflexivity).
  split; [exact H|].
  exact (proj1 (api_send_uses_the_current_handle 401
                  [Whatsapp.Init true true] Sample.hostile []
                  (Some {| Index.recipient := Some "bob@s.whatsapp.net";
                           Index.message := Some "ping" |})
                  0 "bob@s.whatsapp.net" "ping" H)).
Defined.

Lemma shouldReconnect_of loggedOut update :
  Whatsapp.statusCodeOf update <> Some loggedOut ->
  Whatsapp.shouldReconnect loggedOut update = true.
Proof.
  unfold Whatsapp.shouldReconnect. intros H.
  destruct (Whatsapp.statusCodeOf update) as [c|]; [|reflexivity].
  destruct (Z.eqb_spec c loggedOut) as [->|N]; [contradiction|reflexivity].
Qed.

(** X17.  [GET /health] always answers 200 with status ["ok"].  In a
    state that the module can reach it reports [connected: false] while
    no connect has succeeded, and if it reports [connected: false] later
    then a close with the logged-out code has been handled.  A close with
    a transient code does not change what it reports: it keeps saying
    [connected: true] while the reconnect is pending. *)
Theorem health_follows_the_handle :
  forall (loggedOut : Z) (events : list Whatsapp.Event)
         (sock : WASocket) (update : Whatsapp.ConnectionState),
    let st := Whatsapp.run loggedOut events Whatsapp.initial in
    let down := {| Index.code := 200;
                   Index.json := Index.HealthJson "ok" false |} in
    (Index.health st = down \/
     Index.health st = {| Index.code := 200;
                          Index.json := Index.HealthJson "ok" true |}) /\
    (Whatsapp.sockets st = 0%nat -> Index.health st = down) /\
    (Index.health st = down ->
     Whatsapp.sockets st = 0%nat \/
     exists sock' update',
       In (Whatsapp.ConnectionUpdate sock' update') events /\
       Whatsapp.connection update' = Some Whatsapp.close /\
       Whatsapp.statusCodeOf update' = Some loggedOut) /\
    (Whatsapp.connection update = Some Whatsapp.close ->
     Whatsapp.statusCodeOf update <> Some loggedOut ->
     Index.health
       (Whatsapp.step loggedOut (Whatsapp.ConnectionUpdate sock update) st)
     = Index.health st).
Proof.
  intros loggedOut events sock update st down.
  pose proof (consistent_run loggedOut events Whatsapp.initial
                consistent_initial) as C.
  pose proof (grounded_run loggedOut events Whatsapp.initial
                (conj (fun _ => eq_refl) (fun _ => eq_refl))) as G.
  fold st in C, G. unfold consistent in C. unfold grounded in G.
  unfold Index.health, down. cbn [Whatsapp.getSocket fst].
  split; [|split; [|split]].
  - destruct (Whatsapp.socket st); auto.
  - intros Z0. apply G in Z0. rewrite Z0 in C. now rewrite C.
  - intros Hd.
    destruct (Whatsapp.socket st) as [s|] eqn:Es; [discriminate|].
    destruct (Whatsapp.lastWrite st) eqn:L; try contradiction.
    + left. now apply G.
    + right.
      destruct (logout_run loggedOut events Whatsapp.initial L) as [I|E];
        [discriminate|].
      apply Exists_exists in E. destruct E as (ev & Hin & Hev).
      destruct ev as [| sock' update' | |]; try contradiction.
      exists sock', update'. destruct Hev. auto.
  - intros Hc Hs. cbn [Whatsapp.step].
    destruct (sock <? Whatsapp.sockets st)%nat; [|reflexivity].
    pose proof (onConnectionUpdate_cases loggedOut sock update st)
      as (_ & _ & K).
    cbv zeta in K. rewrite Hc, (shouldReconnect_of _ _ Hs) in K.
    destruct K as (-> & _). reflexivity.
Qed.

Lemma health_follows_the_handle_witness :
  Index.health
    (Whatsapp.step 401 (Whatsapp.ConnectionUpdate 0 (Sample.closed 408))
       (Whatsapp.run 401 [Whatsapp.Init true true] Whatsapp.initial)) =
  Index.health (Whatsapp.run 401 [Whatsapp.Init true true] Whatsapp.initial).
Proof.
  assert (N : Whatsapp.statusCodeOf (Sample.closed 408) <> Some 401%Z)
    by discriminate.
  exact (proj2 (proj2 (proj2
           (health_follows_the_handle 401 [Whatsapp.Init true true] 0
              (Sample.closed 408)))) eq_refl N).
Defined.
